(** * NeoBase administrative scripts: a shallow embedding

    The development embeds the parts of [scripts/create_schema.py] and
    [scripts/read_database.py] that decide the behaviour of the batch
    executor ([SchemaCreator.execute_sql]), of the readers
    ([execute_query]), of the table renderer ([print_results]), of the
    configuration layering and of the [try ... finally] bracket of both
    [main] functions.

    Conventions.
    - A Python [str] is a list of Unicode code points.
    - Every call into the database driver may raise a DB-API error, which
      is a subclass of [Exception] carrying a text; console output never
      raises.
    - A computation threads the driver state and the attributes of the
      [self] object, and emits the ordered list of observable events
      (driver calls and printed lines). *)

From Stdlib Require Import List NArith ZArith Lia Bool String Ascii.
From Stdlib Require DecimalString.
Import ListNotations.

Set Implicit Arguments.
Local Open Scope string_scope.
Local Open Scope list_scope.

(* ================================================================== *)
(** * Part I: definitions                                              *)
(* ================================================================== *)

(** ** Python strings *)
Module PyStr.

Definition char := N.
Definition str := list char.

(** Literals: the code points of an ASCII literal of the source. *)
Definition u (s : string) : str :=
  map N_of_ascii (list_ascii_of_string s).
#[global] Arguments u : simpl never.

Definition len (s : str) : nat := List.length s.

Definition str_eqb (a b : str) : bool :=
  if list_eq_dec N.eq_dec a b then true else false.

(** Truthiness of a [str]: non-empty. *)
Definition truthy (s : str) : bool :=
  match s with [] => false | _ :: _ => true end.

(** [str.isspace] on one code point (CPython's [_PyUnicode_IsWhitespace]). *)
Definition isspace (c : char) : bool :=
  ((9 <=? c) && (c <=? 13) || (28 <=? c) && (c <=? 32)
   || (c =? 133) || (c =? 160) || (c =? 5760)
   || (8192 <=? c) && (c <=? 8202)
   || (c =? 8232) || (c =? 8233) || (c =? 8239) || (c =? 8287)
   || (c =? 12288))%N.

Fixpoint lstrip (s : str) : str :=
  match s with
  | [] => []
  | c :: s' => if isspace c then lstrip s' else s
  end.

Definition rstrip (s : str) : str := rev (lstrip (rev s)).

(** [s.strip()] *)
Definition strip (s : str) : str := rstrip (lstrip s).

(** [s.split(sep)] for a one-character separator: never the empty list. *)
Fixpoint split_on (sep : char) (s : str) : list str :=
  match s with
  | [] => [[]]
  | c :: s' =>
      if (c =? sep)%N then [] :: split_on sep s'
      else match split_on sep s' with
           | f :: fs => (c :: f) :: fs
           | [] => [[c]]
           end
  end.

(** [sep.join(l)] *)
Fixpoint join (sep : str) (l : list str) : str :=
  match l with
  | [] => []
  | x :: xs =>
      match xs with
      | [] => x
      | _ :: _ => x ++ sep ++ join sep xs
      end
  end.

(** [s.startswith(p)] *)
Fixpoint startswith (s p : str) : bool :=
  match p, s with
  | [], _ => true
  | _ :: _, [] => false
  | a :: p', b :: s' => (a =? b)%N && startswith s' p'
  end.

(** [s.upper()]: each code point is replaced by its full upper-case
    mapping.  The ASCII range is fixed here; the mapping of the other
    code points is the interpreter's Unicode table [uc]. *)
Definition upper_char (uc : char -> str) (c : char) : str :=
  if (c <? 128)%N
  then [if (97 <=? c)%N && (c <=? 122)%N then (c - 32)%N else c]
  else uc c.

Definition upper (uc : char -> str) (s : str) : str :=
  flat_map (upper_char uc) s.

(** [s.ljust(w)]: pad with spaces on the right up to [w] code points. *)
Definition ljust (s : str) (w : nat) : str :=
  s ++ repeat 32%N (w - len s).

(** [c * n] for a one-character string. *)
Definition times (c : char) (n : nat) : str := repeat c n.

(** [str(n)] for an [int]. *)
Definition str_of_Z (z : Z) : str :=
  u (DecimalString.NilZero.string_of_int (Z.to_int z)).

Definition str_of_nat (n : nat) : str := str_of_Z (Z.of_nat n).

Definition semicolon : char := 59%N.
Definition newline : str := [10%N].

End PyStr.
Import PyStr.

(** ** The statement list of a script *)
Module SqlScript.

(** [[s.strip() for s in sql.split(';') if s.strip()]]
    ([create_schema.py], line 188). *)
Definition statements (sql : str) : list str :=
  map strip (filter (fun s => truthy (strip s)) (split_on semicolon sql)).

(** The same list as the specification words it: split on [;], trim
    every fragment, discard the fragments that are empty after trimming. *)
Definition spec_statements (sql : str) : list str :=
  filter truthy (map strip (split_on semicolon sql)).

(** Rejoining a statement list with [;]. *)
Definition rejoin (l : list str) : str := join [semicolon] l.

(** No leading and no trailing white space. *)
Definition head_ok (s : str) : bool :=
  match s with [] => true | c :: _ => negb (isspace c) end.

Definition stripped (s : str) : bool := head_ok s && head_ok (rev s).

(** [l1] is [l2] with some elements removed, the order kept. *)
Inductive subseq {A : Type} : list A -> list A -> Prop :=
| subseq_nil : subseq [] []
| subseq_skip x l1 l2 : subseq l1 l2 -> subseq l1 (x :: l2)
| subseq_keep x l1 l2 : subseq l1 l2 -> subseq (x :: l1) (x :: l2).

(** A statement as the split leaves it: non-empty, trimmed, free of [;]. *)
Definition clean (s : str) : Prop :=
  s <> [] /\ stripped s = true /\ ~ In semicolon s.

End SqlScript.
Import SqlScript.

(** ** Python dictionaries and the values of a result row *)
Module PyDict.

(** An insertion-ordered dictionary keyed by strings. *)
Definition dict (V : Type) := list (str * V).

(** [d[k]]: [None] stands for [KeyError]. *)
Fixpoint getitem {V} (d : dict V) (k : str) : option V :=
  match d with
  | [] => None
  | (k', v) :: d' => if str_eqb k' k then Some v else getitem d' k
  end.

(** [d.get(k, default)] *)
Definition get {V} (d : dict V) (k : str) (default : V) : V :=
  match getitem d k with Some v => v | None => default end.

(** [d[k] = v]: an existing key keeps its position. *)
Fixpoint setitem {V} (d : dict V) (k : str) (v : V) : dict V :=
  match d with
  | [] => [(k, v)]
  | (k', v') :: d' =>
      if str_eqb k' k then (k', v) :: d' else (k', v') :: setitem d' k v
  end.

(** [list(d.keys())] *)
Definition keys {V} (d : dict V) : list str := map fst d.

(** [dict(items)] *)
Definition dict_of {V} (items : list (str * V)) : dict V :=
  fold_left (fun d kv => setitem d (fst kv) (snd kv)) items [].

(** What a driver puts in a cell.  [VOther] is any other object
    (a timestamp, a decimal), given by its [str()] form. *)
Inductive value :=
| VNone
| VBool (b : bool)
| VInt (z : Z)
| VStr (s : str)
| VOther (text : str).

(** [str(v)] *)
Definition py_str (v : value) : str :=
  match v with
  | VNone => u "None"
  | VBool true => u "True"
  | VBool false => u "False"
  | VInt z => str_of_Z z
  | VStr s => s
  | VOther text => text
  end.

Definition row := dict value.

End PyDict.
Import PyDict.

(** ** Connection configuration *)
Module Config.

Inductive db_type := postgres | mysql.

Definition db_type_name (t : db_type) : str :=
  match t with postgres => u "postgres" | mysql => u "mysql" end.

(** The five keys of a configuration dictionary. *)
Record config := {
  db_name : str;
  db_user : str;
  db_password : str;
  db_host : str;
  db_port : str }.

(** [os.getenv(name, default)]: the value of a variable that is set,
    also when it is set to the empty string. *)
Definition getenv_or (getenv : str -> option str) (name default : str) : str :=
  match getenv name with Some v => v | None => default end.

(** The built-in defaults, before the environment is consulted. *)
Definition builtin_default (t : db_type) : config :=
  {| db_name := u "myapp_db";
     db_user := u "myapp_user";
     db_password := u "changeme123";
     db_host := u "localhost";
     db_port := match t with postgres => u "5432" | mysql => u "3306" end |}.

(** [DEFAULT_CONFIG[t]] (lines 26-41), evaluated when the module loads. *)
Definition DEFAULT_CONFIG (getenv : str -> option str) (t : db_type) : config :=
  {| db_name := getenv_or getenv (u "DB_NAME") (u "myapp_db");
     db_user := getenv_or getenv (u "DB_USER") (u "myapp_user");
     db_password := getenv_or getenv (u "DB_PASSWORD") (u "changeme123");
     db_host := getenv_or getenv (u "DB_HOST") (u "localhost");
     db_port := getenv_or getenv (u "DB_PORT")
                  (match t with postgres => u "5432" | mysql => u "3306" end) |}.

(** The connection flags as [argparse] leaves them: [None] when the
    flag is absent, the given text otherwise. *)
Record overrides := {
  arg_name : option str;
  arg_user : option str;
  arg_password : option str;
  arg_host : option str;
  arg_port : option str }.

(** [if args.x:] on an optional string. *)
Definition opt_truthy (o : option str) : bool :=
  match o with Some s => truthy s | None => false end.

(** [if args.x: config[k] = args.x] *)
Definition override (o : option str) (current : str) : str :=
  match o with
  | Some s => if truthy s then s else current
  | None => current
  end.

(** [config = DEFAULT_CONFIG[args.type].copy()] followed by the five
    conditional assignments (lines 314-324 of [create_schema.py],
    282-292 of [read_database.py]). *)
Definition build_config (getenv : str -> option str) (t : db_type)
           (a : overrides) : config :=
  let config := DEFAULT_CONFIG getenv t in
  {| db_name := override (arg_name a) (db_name config);
     db_user := override (arg_user a) (db_user config);
     db_password := override (arg_password a) (db_password config);
     db_host := override (arg_host a) (db_host config);
     db_port := override (arg_port a) (db_port config) |}.

Inductive field := FName | FUser | FPassword | FHost | FPort.

Definition field_of (c : config) (f : field) : str :=
  match f with
  | FName => db_name c | FUser => db_user c | FPassword => db_password c
  | FHost => db_host c | FPort => db_port c
  end.

Definition flag_of (a : overrides) (f : field) : option str :=
  match f with
  | FName => arg_name a | FUser => arg_user a | FPassword => arg_password a
  | FHost => arg_host a | FPort => arg_port a
  end.

Definition env_var (f : field) : str :=
  match f with
  | FName => u "DB_NAME" | FUser => u "DB_USER" | FPassword => u "DB_PASSWORD"
  | FHost => u "DB_HOST" | FPort => u "DB_PORT"
  end.

(** The layering as the specification words it: an explicit flag
    overrides the environment variable, which overrides the default. *)
Definition spec_layered (getenv : str -> option str) (t : db_type)
           (a : overrides) (f : field) : str :=
  match flag_of a f with
  | Some v => v
  | None =>
      match getenv (env_var f) with
      | Some v => v
      | None => field_of (builtin_default t) f
      end
  end.

End Config.
Import Config.

(** ** Computations: driver state, exceptions and the event trace *)
Module Runtime.

(** The exceptions that travel through the scripts. *)
Inductive exn :=
| Exception (text : str)      (* any subclass of [Exception], with [str(e)] *)
| SystemExit (code : Z).      (* [sys.exit(code)] *)

Inductive res (A : Type) :=
| Val (a : A)
| Exc (e : exn).
Arguments Val {A} a.
Arguments Exc {A} e.

(** What a driver call does: return, or raise an error with a text. *)
Inductive outcome (A : Type) :=
| Returns (a : A)
| Raises (text : str).
Arguments Returns {A} a.
Arguments Raises {A} text.

(** The calls made to the driver. *)
Inductive call :=
| CConnect (t : db_type) (c : config)
| CCursor
| CExecute (statement : str)
| CFetchall
| CCommit
| CRollback
| CCursorClose
| CConnClose.

(** Observable events: a driver call with the text of the error it
    raised if any, a [print], the parser's help text. *)
Inductive event :=
| Call (c : call) (raised : option str)
| Stdout (text : str)
| HelpText.

(** The database driver, a state machine of its own. *)
Record Driver (St : Type) := {
  d_connect : db_type -> config -> St -> St * outcome unit;
  d_cursor : St -> St * outcome unit;
  d_execute : str -> St -> St * outcome unit;
  d_fetchall : St -> St * outcome (list row);
  d_commit : St -> St * outcome unit;
  d_rollback : St -> St * outcome unit;
  d_cursor_close : St -> St * outcome unit;
  d_conn_close : St -> St * outcome unit }.

(** A live driver object held in an attribute. *)
Inductive handle := Handle.

(** The driver state and the two attributes of [self]. *)
Record world (St : Type) := {
  drv : St;
  self_connection : option handle;
  self_cursor : option handle }.

Definition M (St A : Type) := world St -> res A * world St * list event.

Definition ret {St A} (a : A) : M St A := fun w => (Val a, w, []).

Definition bind {St A B} (m : M St A) (f : A -> M St B) : M St B :=
  fun w =>
    match m w with
    | (Val a, w1, t1) =>
        match f a w1 with (r, w2, t2) => (r, w2, t1 ++ t2) end
    | (Exc e, w1, t1) => (Exc e, w1, t1)
    end.

Definition raise {St A} (e : exn) : M St A := fun w => (Exc e, w, []).

(** [sys.exit(code)] *)
Definition sys_exit {St A} (code : Z) : M St A := raise (SystemExit code).

(** [try: m  except Exception as e: h(str(e))] *)
Definition try_except {St A} (m : M St A) (h : str -> M St A) : M St A :=
  fun w =>
    match m w with
    | (Exc (Exception text), w1, t1) =>
        match h text w1 with (r, w2, t2) => (r, w2, t1 ++ t2) end
    | other => other
    end.

(** [try: m  finally: fin] *)
Definition try_finally {St A} (m : M St A) (fin : M St unit) : M St A :=
  fun w =>
    match m w with
    | (r, w1, t1) =>
        match fin w1 with
        | (Val _, w2, t2) => (r, w2, t1 ++ t2)
        | (Exc e, w2, t2) => (Exc e, w2, t1 ++ t2)
        end
    end.

Definition print {St} (text : str) : M St unit :=
  fun w => (Val tt, w, [Stdout text]).

Definition print_help {St} : M St unit :=
  fun w => (Val tt, w, [HelpText]).

Definition result_of {A} (o : outcome A) : res A :=
  match o with Returns a => Val a | Raises text => Exc (Exception text) end.

Definition raised_of {A} (o : outcome A) : option str :=
  match o with Returns _ => None | Raises text => Some text end.

(** One call to the driver, recorded with its outcome. *)
Definition driver_call {St A} (c : call) (op : St -> St * outcome A) : M St A :=
  fun w =>
    match op (drv w) with
    | (st, o) =>
        (result_of o,
         {| drv := st; self_connection := self_connection w;
            self_cursor := self_cursor w |},
         [Call c (raised_of o)])
    end.

(** [AttributeError] of an attribute looked up on [None]. *)
Definition attribute_error (attr : str) : exn :=
  Exception (u "'NoneType' object has no attribute '" ++ attr ++ u "'").

(** A method called on [self.cursor]. *)
Definition on_cursor {St A} (attr : str) (m : M St A) : M St A :=
  fun w =>
    match self_cursor w with
    | Some _ => m w
    | None => raise (attribute_error attr) w
    end.

(** A method called on [self.connection]. *)
Definition on_connection {St A} (attr : str) (m : M St A) : M St A :=
  fun w =>
    match self_connection w with
    | Some _ => m w
    | None => raise (attribute_error attr) w
    end.

Definition set_connection {St} (h : option handle) : M St unit :=
  fun w => (Val tt, {| drv := drv w; self_connection := h;
                       self_cursor := self_cursor w |}, []).

Definition set_cursor {St} (h : option handle) : M St unit :=
  fun w => (Val tt, {| drv := drv w; self_connection := self_connection w;
                       self_cursor := h |}, []).

(** [if self.cursor:] and [if self.connection:] *)
Definition if_cursor {St} (m : M St unit) : M St unit :=
  fun w => match self_cursor w with Some _ => m w | None => ret tt w end.

Definition if_connection {St} (m : M St unit) : M St unit :=
  fun w => match self_connection w with Some _ => m w | None => ret tt w end.

(** [for x in l: body(x)] *)
Fixpoint for_each {St A} (l : list A) (body : A -> M St unit) : M St unit :=
  match l with
  | [] => ret tt
  | x :: l' => bind (body x) (fun _ => for_each l' body)
  end.

(** [[f(x) for x in l]] with an [f] that may raise. *)
Fixpoint map_M {St A B} (f : A -> M St B) (l : list A) : M St (list B) :=
  match l with
  | [] => ret []
  | x :: l' => bind (f x) (fun y => bind (map_M f l') (fun ys => ret (y :: ys)))
  end.

(** A fresh object: [self.connection = None], [self.cursor = None]. *)
Definition fresh {St} (st : St) : world St :=
  {| drv := st; self_connection := None; self_cursor := None |}.

(** An object whose [connect()] has succeeded. *)
Definition connected {St} (st : St) : world St :=
  {| drv := st; self_connection := Some Handle; self_cursor := Some Handle |}.

Definition value_of {St A} (x : res A * world St * list event) : res A :=
  fst (fst x).
Definition world_of {St A} (x : res A * world St * list event) : world St :=
  snd (fst x).
Definition trace_of {St A} (x : res A * world St * list event) : list event :=
  snd x.

(** The driver calls of a trace, in order. *)
Definition driver_calls (t : list event) : list (call * option str) :=
  flat_map (fun e => match e with Call c r => [(c, r)] | _ => [] end) t.

Definition count_calls (p : call -> bool) (t : list event) : nat :=
  List.length (filter (fun cr => p (fst cr)) (driver_calls t)).

Definition is_execute (c : call) : bool :=
  match c with CExecute _ => true | _ => false end.
Definition is_commit (c : call) : bool :=
  match c with CCommit => true | _ => false end.
Definition is_rollback (c : call) : bool :=
  match c with CRollback => true | _ => false end.

Module Notations.
Notation "x <- m ;; k" := (bind m (fun x => k))
  (at level 61, m at next level, right associativity).
Notation "m ;; k" := (bind m (fun _ => k))
  (at level 61, right associativity).
End Notations.

End Runtime.
Import Runtime.
Import Runtime.Notations.

(** ** Console logging (both scripts) *)
Module Log.

Definition esc (code : string) : str := 27%N :: u code.

Definition GREEN : str := esc "[0;32m".
Definition YELLOW : str := esc "[1;33m".
Definition RED : str := esc "[0;31m".
Definition BLUE : str := esc "[0;34m".
Definition NC : str := esc "[0m".

Definition info_line (message : str) : str :=
  GREEN ++ u "[INFO]" ++ NC ++ u " " ++ message.
Definition warn_line (message : str) : str :=
  YELLOW ++ u "[WARN]" ++ NC ++ u " " ++ message.
Definition error_line (message : str) : str :=
  RED ++ u "[ERROR]" ++ NC ++ u " " ++ message.
Definition success_line (message : str) : str :=
  BLUE ++ u "[SUCCESS]" ++ NC ++ u " " ++ message.

Definition log_info {St} (message : str) : M St unit := print (info_line message).
Definition log_warn {St} (message : str) : M St unit := print (warn_line message).
Definition log_error {St} (message : str) : M St unit := print (error_line message).
Definition log_success {St} (message : str) : M St unit :=
  print (success_line message).

End Log.
Import Log.

(** ** What the interpreter and the operating system provide *)
Module Environment.

Record Env := {
  getenv : str -> option str;          (* [os.getenv] *)
  POSTGRES_AVAILABLE : bool;           (* [import psycopg2] succeeded *)
  MYSQL_AVAILABLE : bool;              (* [import mysql.connector] succeeded *)
  path_exists : str -> bool;           (* [os.path.exists] *)
  read_file : str -> outcome str;      (* [open(p, 'r')] and [f.read()] *)
  date_output : str;                   (* [os.popen('date').read()] *)
  unicode_upper : char -> str;         (* upper-case table beyond ASCII *)
  json_dumps : list row -> str }.      (* [json.dumps(_, indent=2, default=str)] *)

End Environment.
Import Environment.

(** ** [scripts/create_schema.py] *)
Module CreateSchema.

Definition unlines (l : list str) : str := join newline l.

Definition users_postgres : str :=
  unlines
    [ [];
      u "CREATE TABLE IF NOT EXISTS users (";
      u "    id SERIAL PRIMARY KEY,";
      u "    username VARCHAR(50) UNIQUE NOT NULL,";
      u "    email VARCHAR(100) UNIQUE NOT NULL,";
      u "    password_hash VARCHAR(255) NOT NULL,";
      u "    first_name VARCHAR(50),";
      u "    last_name VARCHAR(50),";
      u "    is_active BOOLEAN DEFAULT true,";
      u "    created_at TIMESTAMP DEFAULT CURRENT_TIMESTAMP,";
      u "    updated_at TIMESTAMP DEFAULT CURRENT_TIMESTAMP";
      u ");";
      [];
      u "CREATE INDEX idx_users_email ON users(email);";
      u "CREATE INDEX idx_users_username ON users(username);";
      [] ].

Definition users_mysql : str :=
  unlines
    [ [];
      u "CREATE TABLE IF NOT EXISTS users (";
      u "    id INT AUTO_INCREMENT PRIMARY KEY,";
      u "    username VARCHAR(50) UNIQUE NOT NULL,";
      u "    email VARCHAR(100) UNIQUE NOT NULL,";
      u "    password_hash VARCHAR(255) NOT NULL,";
      u "    first_name VARCHAR(50),";
      u "    last_name VARCHAR(50),";
      u "    is_active BOOLEAN DEFAULT true,";
      u "    created_at TIMESTAMP DEFAULT CURRENT_TIMESTAMP,";
      u "    updated_at TIMESTAMP DEFAULT CURRENT_TIMESTAMP ON UPDATE CURRENT_TIMESTAMP,";
      u "    INDEX idx_users_email (email),";
      u "    INDEX idx_users_username (username)";
      u ") ENGINE=InnoDB DEFAULT CHARSET=utf8mb4 COLLATE=utf8mb4_unicode_ci;";
      [] ].

Definition posts_postgres : str :=
  unlines
    [ [];
      u "CREATE TABLE IF NOT EXISTS posts (";
      u "    id SERIAL PRIMARY KEY,";
      u "    user_id INTEGER NOT NULL,";
      u "    title VARCHAR(200) NOT NULL,";
      u "    content TEXT,";
      u "    status VARCHAR(20) DEFAULT 'draft',";
      u "    published_at TIMESTAMP,";
      u "    created_at TIMESTAMP DEFAULT CURRENT_TIMESTAMP,";
      u "    updated_at TIMESTAMP DEFAULT CURRENT_TIMESTAMP,";
      u "    FOREIGN KEY (user_id) REFERENCES users(id) ON DELETE CASCADE";
      u ");";
      [];
      u "CREATE INDEX idx_posts_user_id ON posts(user_id);";
      u "CREATE INDEX idx_posts_status ON posts(status);";
      u "CREATE INDEX idx_posts_published_at ON posts(published_at);";
      [] ].

Definition posts_mysql : str :=
  unlines
    [ [];
      u "CREATE TABLE IF NOT EXISTS posts (";
      u "    id INT AUTO_INCREMENT PRIMARY KEY,";
      u "    user_id INT NOT NULL,";
      u "    title VARCHAR(200) NOT NULL,";
      u "    content TEXT,";
      u "    status VARCHAR(20) DEFAULT 'draft',";
      u "    published_at TIMESTAMP NULL,";
      u "    created_at TIMESTAMP DEFAULT CURRENT_TIMESTAMP,";
      u "    updated_at TIMESTAMP DEFAULT CURRENT_TIMESTAMP ON UPDATE CURRENT_TIMESTAMP,";
      u "    FOREIGN KEY (user_id) REFERENCES users(id) ON DELETE CASCADE,";
      u "    INDEX idx_posts_user_id (user_id),";
      u "    INDEX idx_posts_status (status),";
      u "    INDEX idx_posts_published_at (published_at)";
      u ") ENGINE=InnoDB DEFAULT CHARSET=utf8mb4 COLLATE=utf8mb4_unicode_ci;";
      [] ].

Definition comments_postgres : str :=
  unlines
    [ [];
      u "CREATE TABLE IF NOT EXISTS comments (";
      u "    id SERIAL PRIMARY KEY,";
      u "    post_id INTEGER NOT NULL,";
      u "    user_id INTEGER NOT NULL,";
      u "    content TEXT NOT NULL,";
      u "    parent_id INTEGER,";
      u "    created_at TIMESTAMP DEFAULT CURRENT_TIMESTAMP,";
      u "    updated_at TIMESTAMP DEFAULT CURRENT_TIMESTAMP,";
      u "    FOREIGN KEY (post_id) REFERENCES posts(id) ON DELETE CASCADE,";
      u "    FOREIGN KEY (user_id) REFERENCES users(id) ON DELETE CASCADE,";
      u "    FOREIGN KEY (parent_id) REFERENCES comments(id) ON DELETE CASCADE";
      u ");";
      [];
      u "CREATE INDEX idx_comments_post_id ON comments(post_id);";
      u "CREATE INDEX idx_comments_user_id ON comments(user_id);";
      u "CREATE INDEX idx_comments_parent_id ON comments(parent_id);";
      [] ].

Definition comments_mysql : str :=
  unlines
    [ [];
      u "CREATE TABLE IF NOT EXISTS comments (";
      u "    id INT AUTO_INCREMENT PRIMARY KEY,";
      u "    post_id INT NOT NULL,";
      u "    user_id INT NOT NULL,";
      u "    content TEXT NOT NULL,";
      u "    parent_id INT,";
      u "    created_at TIMESTAMP DEFAULT CURRENT_TIMESTAMP,";
      u "    updated_at TIMESTAMP DEFAULT CURRENT_TIMESTAMP ON UPDATE CURRENT_TIMESTAMP,";
      u "    FOREIGN KEY (post_id) REFERENCES posts(id) ON DELETE CASCADE,";
      u "    FOREIGN KEY (user_id) REFERENCES users(id) ON DELETE CASCADE,";
      u "    FOREIGN KEY (parent_id) REFERENCES comments(id) ON DELETE CASCADE,";
      u "    INDEX idx_comments_post_id (post_id),";
      u "    INDEX idx_comments_user_id (user_id),";
      u "    INDEX idx_comments_parent_id (parent_id)";
      u ") ENGINE=InnoDB DEFAULT CHARSET=utf8mb4 COLLATE=utf8mb4_unicode_ci;";
      [] ].


(** [EXAMPLE_SCHEMAS], in the order of its keys. *)
Definition EXAMPLE_SCHEMAS : dict (db_type -> str) :=
  [ (u "users", fun t => match t with postgres => users_postgres | mysql => users_mysql end);
    (u "posts", fun t => match t with postgres => posts_postgres | mysql => posts_mysql end);
    (u "comments",
     fun t => match t with postgres => comments_postgres | mysql => comments_mysql end) ].

(** The parsed command line. *)
Record Args := {
  arg_type : db_type;
  arg_schema : option str;
  arg_example : option str;
  arg_generate_example : bool;
  arg_overrides : overrides }.

Section WithDriver.
Context {St : Type} (D : Driver St) (E : Env).

(** The body of the loop of [execute_sql] (lines 191-193). *)
Definition execute_one (statement : str) : M St unit :=
  if truthy statement then
    log_info (u "Executing: " ++ firstn 80 statement ++ u "...") ;;
    on_cursor (u "execute") (driver_call (CExecute statement) (d_execute D statement))
  else ret tt.

(** The loop of [execute_sql] (lines 190-193). *)
Definition execute_statements (statements : list str) : M St unit :=
  for_each statements execute_one.

(** [SchemaCreator.execute_sql] (lines 184-201). *)
Definition execute_sql (sql : str) : M St bool :=
  try_except
    (execute_statements (statements sql) ;;
     on_connection (u "commit") (driver_call CCommit (d_commit D)) ;;
     log_success (u "Schema created successfully!") ;;
     ret true)
    (fun e =>
       log_error (u "Failed to execute SQL: " ++ e) ;;
       on_connection (u "rollback") (driver_call CRollback (d_rollback D)) ;;
       ret false).

(** [SchemaCreator.close] (lines 203-209). *)
Definition close : M St unit :=
  if_cursor (driver_call CCursorClose (d_cursor_close D)) ;;
  if_connection
    (driver_call CConnClose (d_conn_close D) ;;
     log_info (u "Database connection closed")).

Definition vendor (t : db_type) : str :=
  match t with postgres => u "PostgreSQL" | mysql => u "MySQL" end.

Definition available (t : db_type) : bool :=
  match t with
  | postgres => POSTGRES_AVAILABLE E
  | mysql => MYSQL_AVAILABLE E
  end.

Definition not_installed (t : db_type) : str :=
  match t with
  | postgres =>
      u "psycopg2 is not installed. Install it with: pip install psycopg2-binary"
  | mysql =>
      u "mysql-connector-python is not installed. Install it with: pip install mysql-connector-python"
  end.

(** [PostgresSchemaCreator.__init__] and [MySQLSchemaCreator.__init__]. *)
Definition init (t : db_type) : M St unit :=
  set_connection None ;;
  set_cursor None ;;
  if available t then ret tt
  else log_error (not_installed t) ;; sys_exit 1.

(** [connect] of both subclasses (lines 220-234 and 245-259). *)
Definition connect (t : db_type) (config : config) : M St unit :=
  try_except
    (driver_call (CConnect t config) (d_connect D t config) ;;
     set_connection (Some Handle) ;;
     on_connection (u "cursor") (driver_call CCursor (d_cursor D)) ;;
     set_cursor (Some Handle) ;;
     log_info (u "Connected to " ++ vendor t ++ u " database: " ++ db_name config))
    (fun e =>
       log_error (u "Failed to connect to " ++ vendor t ++ u ": " ++ e) ;;
       sys_exit 1).

(** The [--generate-example] branch of [main] (lines 303-311). *)
Definition generate_example (t : db_type) : M St unit :=
  print (u "-- Example Schema for " ++ upper (unicode_upper E) (db_type_name t)) ;;
  print (u "-- Generated on " ++ strip (date_output E)) ;;
  print [] ;;
  for_each EXAMPLE_SCHEMAS (fun item =>
    print (u "-- Table: " ++ fst item) ;;
    print (snd item t) ;;
    print []).

(** [with open(args.schema, 'r') as f: sql = f.read()] *)
Definition read_schema (path : str) : M St str :=
  fun w => (result_of (read_file E path), w, []).

(** The body of the [try] block of [main] (lines 333-364). *)
Definition main_body (args : Args) (config : config) : M St unit :=
  connect (arg_type args) config ;;
  if opt_truthy (arg_schema args) then
    let path := match arg_schema args with Some p => p | None => [] end in
    (if path_exists E path then ret tt
     else log_error (u "Schema file not found: " ++ path) ;; sys_exit 1) ;;
    sql <- read_schema path ;;
    log_info (u "Creating schema from file: " ++ path) ;;
    _ <- execute_sql sql ;;
    ret tt
  else if opt_truthy (arg_example args) then
    let example := match arg_example args with Some x => x | None => [] end in
    let tables := map strip (split_on 44%N example) in
    for_each tables (fun table =>
      match getitem EXAMPLE_SCHEMAS table with
      | None => log_warn (u "Unknown example table: " ++ table)
      | Some schemas =>
          log_info (u "Creating example table: " ++ table) ;;
          _ <- execute_sql (schemas (arg_type args)) ;;
          ret tt
      end)
  else
    log_error (u "Please specify --schema or --example") ;;
    print_help.

(** [main] (lines 261-367), after [parse_args]. *)
Definition main (args : Args) : M St unit :=
  if arg_generate_example args then generate_example (arg_type args)
  else
    let config := build_config (getenv E) (arg_type args) (arg_overrides args) in
    init (arg_type args) ;;
    try_finally (main_body args config) close.

End WithDriver.

End CreateSchema.

(** ** [scripts/read_database.py] *)
Module ReadDatabase.

(** The parsed command line. *)
Record Args := {
  arg_type : db_type;
  arg_query : option str;
  arg_list_tables : bool;
  arg_describe : option str;
  arg_format : str;
  arg_overrides : overrides }.

(** The text of a [KeyError] and of an [IndexError]. *)
Definition key_error (k : str) : exn := Exception (u "'" ++ k ++ u "'").
Definition index_error : exn := Exception (u "list index out of range").

(** [str(row.get(h, ''))] *)
Definition cell (r : row) (h : str) : str := py_str (get r h (VStr [])).

(** [" | "] *)
Definition bar : str := u " | ".

(** [[dict(row) for row in results]] for PostgreSQL, [results] itself
    for MySQL. *)
Definition rows_of (t : db_type) (results : list row) : list row :=
  match t with
  | postgres => map (fun r => dict_of r) results
  | mysql => results
  end.

Section WithDriver.
Context {St : Type} (D : Driver St) (E : Env).

(** [d[k]] where a missing key raises. *)
Definition getitem_M {V} (d : dict V) (k : str) : M St V :=
  match getitem d k with
  | Some v => ret v
  | None => raise (key_error k)
  end.

(** [query.strip().upper().startswith('SELECT')] *)
Definition is_select (query : str) : bool :=
  startswith (upper (unicode_upper E) (strip query)) (u "SELECT").

(** [execute_query] of [PostgresReader] (lines 91-103) and of
    [MySQLReader] (lines 167-179); the former copies every row with
    [dict(row)]. *)
Definition execute_query (t : db_type) (query : str) : M St (list row) :=
  try_except
    (on_cursor (u "execute") (driver_call (CExecute query) (d_execute D query)) ;;
     if is_select query then
       results <- on_cursor (u "fetchall") (driver_call CFetchall (d_fetchall D)) ;;
       ret (rows_of t results)
     else
       on_connection (u "commit") (driver_call CCommit (d_commit D)) ;;
       ret [])
    (fun e =>
       log_error (u "Query execution failed: " ++ e) ;;
       ret []).

Definition postgres_list_query : str :=
  join newline
    [ [];
      u "            SELECT table_name ";
      u "            FROM information_schema.tables ";
      u "            WHERE table_schema = 'public' AND table_type = 'BASE TABLE'";
      u "            ORDER BY table_name;";
      u "        " ].

(** [list_tables] of both readers (lines 105-114 and 181-188). *)
Definition list_tables (t : db_type) : M St (list value) :=
  match t with
  | postgres =>
      results <- execute_query postgres postgres_list_query ;;
      map_M (fun r => getitem_M r (u "table_name")) results
  | mysql =>
      results <- execute_query mysql (u "SHOW TABLES;") ;;
      match results with
      | [] => ret []
      | first :: _ =>
          match keys first with
          | [] => raise index_error
          | key :: _ => map_M (fun r => getitem_M r key) results
          end
      end
  end.

(** [describe_table] of both readers (lines 116-129 and 190-193). *)
Definition describe_table (t : db_type) (table_name : str) : M St (list row) :=
  match t with
  | postgres =>
      execute_query postgres
        (join newline
           [ [];
             u "            SELECT ";
             u "                column_name,";
             u "                data_type,";
             u "                character_maximum_length,";
             u "                is_nullable,";
             u "                column_default";
             u "            FROM information_schema.columns";
             u "            WHERE table_name = '" ++ table_name ++ u "'";
             u "            ORDER BY ordinal_position;";
             u "        " ])
  | mysql => execute_query mysql (u "DESCRIBE " ++ table_name ++ u ";")
  end.

(** [close] of both readers (lines 131-137 and 195-201). *)
Definition close : M St unit :=
  if_cursor (driver_call CCursorClose (d_cursor_close D)) ;;
  if_connection
    (driver_call CConnClose (d_conn_close D) ;;
     log_info (u "Database connection closed")).

(** [__init__] of both readers. *)
Definition init (t : db_type) : M St unit :=
  (if CreateSchema.available E t then ret tt
   else log_error (CreateSchema.not_installed t) ;; sys_exit 1) ;;
  set_connection None ;;
  set_cursor None.

(** [connect] of both readers (lines 75-89 and 151-165). *)
Definition connect (t : db_type) (config : config) : M St unit :=
  try_except
    (driver_call (CConnect t config) (d_connect D t config) ;;
     set_connection (Some Handle) ;;
     on_connection (u "cursor") (driver_call CCursor (d_cursor D)) ;;
     set_cursor (Some Handle) ;;
     log_info (u "Connected to " ++ CreateSchema.vendor t ++ u " database: "
               ++ db_name config))
    (fun e =>
       log_error (u "Failed to connect to " ++ CreateSchema.vendor t ++ u ": " ++ e) ;;
       sys_exit 1).

(** [{h: len(h) for h in headers}] *)
Definition initial_widths (headers : list str) : dict nat :=
  fold_left (fun d h => setitem d h (len h)) headers [].

(** The inner loop of lines 220-222 for one row. *)
Fixpoint widen_row (r : row) (headers : list str) (col_widths : dict nat)
  : M St (dict nat) :=
  match headers with
  | [] => ret col_widths
  | header :: rest =>
      let val_len := len (cell r header) in
      w <- getitem_M col_widths header ;;
      widen_row r rest (setitem col_widths header (Nat.max w val_len))
  end.

(** The loop of lines 219-222. *)
Fixpoint widen (results : list row) (headers : list str) (col_widths : dict nat)
  : M St (dict nat) :=
  match results with
  | [] => ret col_widths
  | r :: rest =>
      col_widths' <- widen_row r headers col_widths ;;
      widen rest headers col_widths'
  end.

(** [" | ".join(text(h).ljust(col_widths[h]) for h in headers)] *)
Definition justified (text : str -> str) (headers : list str)
           (col_widths : dict nat) : M St str :=
  parts <- map_M (fun h => w <- getitem_M col_widths h ;; ret (ljust (text h) w))
                 headers ;;
  ret (join bar parts).

(** [print_results] (lines 203-234). *)
Definition print_results (results : list row) (format_type : str) : M St unit :=
  match results with
  | [] => log_warn (u "No results returned")
  | first :: _ =>
      if str_eqb format_type (u "json") then
        print (json_dumps E results)
      else
        let headers := keys first in
        col_widths <- widen results headers (initial_widths headers) ;;
        header_line <- justified (fun h => h) headers col_widths ;;
        print (newline ++ header_line) ;;
        print (times 45%N (len header_line)) ;;
        for_each results (fun r =>
          row_line <- justified (cell r) headers col_widths ;;
          print row_line) ;;
        print (newline ++ str_of_nat (List.length results)
               ++ u " row(s) returned" ++ newline)
  end.

(** Truthiness of a list. *)
Definition nonempty {A} (l : list A) : bool :=
  match l with [] => false | _ :: _ => true end.

(** The body of the [try] block of [main] (lines 300-331). *)
Definition main_body (args : Args) (config : config) : M St unit :=
  connect (arg_type args) config ;;
  if arg_list_tables args then
    tables <- list_tables (arg_type args) ;;
    if nonempty tables then
      log_info (u "Tables in database '" ++ db_name config ++ u "':") ;;
      for_each tables (fun table => print (u "  - " ++ py_str table))
    else log_warn (u "No tables found in database")
  else if opt_truthy (arg_describe args) then
    let table := match arg_describe args with Some x => x | None => [] end in
    results <- describe_table (arg_type args) table ;;
    if nonempty results then
      log_info (u "Structure of table '" ++ table ++ u "':") ;;
      print_results results (arg_format args)
    else log_warn (u "Table '" ++ table ++ u "' not found")
  else if opt_truthy (arg_query args) then
    let query := match arg_query args with Some x => x | None => [] end in
    results <- execute_query (arg_type args) query ;;
    if nonempty results then print_results results (arg_format args)
    else if negb (is_select query) then log_info (u "Query executed successfully")
    else ret tt
  else
    log_error (u "Please specify --query, --list-tables, or --describe") ;;
    print_help.

(** [main] (lines 236-334), after [parse_args]. *)
Definition main (args : Args) : M St unit :=
  let config := build_config (getenv E) (arg_type args) (arg_overrides args) in
  init (arg_type args) ;;
  try_finally (main_body args config) close.

End WithDriver.

End ReadDatabase.

(** ** Concrete drivers and environments *)
Module Fixtures.

(** A driver without state: [execute] raises what [bad] says, the other
    calls raise the given text if any, [fetchall] returns [rows]. *)
Definition raising (e : option str) : unit -> unit * outcome unit :=
  fun st => (st, match e with Some text => Raises text | None => Returns tt end).

Definition scripted (bad : str -> option str)
           (commit_error rollback_error cursor_close_error : option str)
           (rows : list row) : Driver unit :=
  {| d_connect := fun _ _ => raising None;
     d_cursor := raising None;
     d_execute := fun statement => raising (bad statement);
     d_fetchall := fun st => (st, Returns rows);
     d_commit := raising commit_error;
     d_rollback := raising rollback_error;
     d_cursor_close := raising cursor_close_error;
     d_conn_close := raising None |}.

(** Every call succeeds. *)
Definition healthy : Driver unit := scripted (fun _ => None) None None None [].

(** The statement [B] raises [boom]. *)
Definition rejects_B : Driver unit :=
  scripted (fun s => if str_eqb s (u "B") then Some (u "boom") else None)
           None None None [].

(** Every statement executes, the commit raises. *)
Definition commit_fails : Driver unit :=
  scripted (fun _ => None) (Some (u "deferred constraint violated")) None None [].

(** Every statement is rejected. *)
Definition rejects_all : Driver unit :=
  scripted (fun _ => Some (u "syntax error")) None None None [].

(** Closing the cursor raises. *)
Definition cursor_close_fails : Driver unit :=
  scripted (fun _ => None) None None (Some (u "Unread result found")) [].

(** An interpreter with both drivers installed, an empty file system
    and the environment variables [vars]. *)
Definition env (vars : str -> option str) : Env :=
  {| getenv := vars;
     POSTGRES_AVAILABLE := true;
     MYSQL_AVAILABLE := true;
     path_exists := fun _ => false;
     read_file := fun _ => Raises (u "No such file or directory");
     date_output := u "Tue Nov  3 12:00:00 UTC 2026";
     unicode_upper := fun c => [c];
     json_dumps := fun rows =>
       match rows with [] => u "[]" | _ :: _ => u "[ ... ]" end |}.

Definition no_vars : str -> option str := fun _ => None.

Definition no_flags : overrides :=
  {| arg_name := None; arg_user := None; arg_password := None;
     arg_host := None; arg_port := None |}.

(** [DB_PASSWORD=secret] and no other variable. *)
Definition password_in_env : str -> option str :=
  fun name => if str_eqb name (u "DB_PASSWORD") then Some (u "secret") else None.

(** [--password ''] and no other connection flag. *)
Definition empty_password_flag : overrides :=
  {| arg_name := None; arg_user := None; arg_password := Some [];
     arg_host := None; arg_port := None |}.

(** [--host db.internal] and no other connection flag. *)
Definition host_flag : overrides :=
  {| arg_name := None; arg_user := None; arg_password := None;
     arg_host := Some (u "db.internal"); arg_port := None |}.

(** [--type postgres --example users] *)
Definition example_users : CreateSchema.Args :=
  {| CreateSchema.arg_type := postgres;
     CreateSchema.arg_schema := None;
     CreateSchema.arg_example := Some (u "users");
     CreateSchema.arg_generate_example := false;
     CreateSchema.arg_overrides := no_flags |}.

(** The two rows of the specification's example. *)
Definition ann_bob : list row :=
  [ [(u "id", VInt 1); (u "name", VStr (u "ann"))];
    [(u "id", VInt 2); (u "name", VStr (u "bob"))] ].

End Fixtures.

(** ** Vocabulary of the statements about the batch executor *)
Module Batch.

Section WithDriver.
Context {St : Type} (D : Driver St).

(** Every statement of [l] executes without raising, in order, from
    the driver state [st]; the result is the state reached. *)
Fixpoint all_succeed (l : list str) (st : St) : option St :=
  match l with
  | [] => Some st
  | s :: l' =>
      match d_execute D s st with
      | (st', Returns _) => all_succeed l' st'
      | (_, Raises _) => None
      end
  end.

End WithDriver.

Definition executing_line (statement : str) : str :=
  info_line (u "Executing: " ++ firstn 80 statement ++ u "...").

(** The events of statements that execute: a log line and a call each. *)
Definition attempted (l : list str) : list event :=
  flat_map (fun s => [Stdout (executing_line s); Call (CExecute s) None]) l.

(** The calls [execute(s)], all returning, for the statements of [l]. *)
Definition executed (l : list str) : list (call * option str) :=
  map (fun s => (CExecute s, None)) l.

End Batch.
Import Batch.

(** ** Vocabulary of the statements about the table renderer *)
Module Table.

Import ReadDatabase.

(** The display width of column [h]: the largest of the length of the
    header and of the lengths of the cells of the column. *)
Definition column_width (results : list row) (h : str) : nat :=
  list_max (len h :: map (fun r => len (cell r h)) results).

(** The widths after widening the widths [T] by the rows [rs] in turn. *)
Definition widened (rs : list row) (T : str -> nat) (h : str) : nat :=
  fold_left (fun w r => Nat.max w (len (cell r h))) rs (T h).

Definition header_line (results : list row) (headers : list str) : str :=
  join bar (map (fun h => ljust h (column_width results h)) headers).

Definition row_line (results : list row) (headers : list str) (r : row) : str :=
  join bar (map (fun h => ljust (cell r h) (column_width results h)) headers).

Definition count_line (results : list row) : str :=
  newline ++ str_of_nat (List.length results) ++ u " row(s) returned" ++ newline.

(** The lines of the table, one per [print]. *)
Definition table (results : list row) (headers : list str) : list event :=
  [Stdout (newline ++ header_line results headers);
   Stdout (times 45%N (len (header_line results headers)))]
  ++ map (fun r => Stdout (row_line results headers r)) results
  ++ [Stdout (count_line results)].

(** [s] is [text] followed by spaces only, [w] code points in all. *)
Definition left_justified (s text : str) (w : nat) : Prop :=
  len s = w /\ exists pad, s = text ++ repeat 32%N pad.

End Table.
Import Table.

(** ** Vocabulary of the statements about the release of the connection *)
Module Lifecycle.

(** The calls that acquire or release the connection and its cursor. *)
Definition is_lifecycle (c : call) : bool :=
  match c with
  | CConnect _ _ | CCursor | CCursorClose | CConnClose => true
  | _ => false
  end.

(** The lifecycle calls of a trace, in order, with their outcomes. *)
Definition lifecycle (t : list event) : list (call * option str) :=
  filter (fun cr => is_lifecycle (fst cr)) (driver_calls t).

(** A computation that leaves the two attributes of [self] as they are
    and makes no lifecycle call. *)
Definition quiet {St A : Type} (m : M St A) : Prop :=
  forall w : world St,
    self_connection (world_of (m w)) = self_connection w
    /\ self_cursor (world_of (m w)) = self_cursor w
    /\ lifecycle (trace_of (m w)) = [].

(** The lifecycle calls of a whole run. *)
Inductive run_shape (t : db_type) (c : config) : list (call * option str) -> Prop :=
| never_connected :
    run_shape t c []
| connect_raised msg :
    run_shape t c [(CConnect t c, Some msg)]
| cursor_raised msg r :
    run_shape t c [(CConnect t c, None); (CCursor, Some msg); (CConnClose, r)]
| both_closed r :
    run_shape t c [(CConnect t c, None); (CCursor, None);
                   (CCursorClose, None); (CConnClose, r)]
| cursor_close_raised msg :
    run_shape t c [(CConnect t c, None); (CCursor, None); (CCursorClose, Some msg)].

(** No cursor is closed after the connection is. *)
Fixpoint closes_in_order (connection_closed : bool) (l : list (call * option str))
  : bool :=
  match l with
  | [] => true
  | (CCursorClose, _) :: l' =>
      negb connection_closed && closes_in_order connection_closed l'
  | (CConnClose, _) :: l' => closes_in_order true l'
  | _ :: l' => closes_in_order connection_closed l'
  end.

Definition is_conn_close (c : call) : bool :=
  match c with CConnClose => true | _ => false end.

End Lifecycle.
Import Lifecycle.

(** ** [setup_database.py] *)
Module SetupDatabase.

(** What a process that has ended leaves behind. *)
Record completed := {
returncode : Z;
stdout : str;
stderr : str }.

(** The exceptions that travel through the script. *)
Inductive exn :=
| CalledProcessError (command : list str) (code : Z) (err : str)
| OtherError (text : str)       (* any other exception, with its text *)
| Exit (code : Z).              (* [sys.exit(code)] *)

Inductive res (A : Type) :=
| Done (a : A)
| Fail (e : exn).
Arguments Done {A} a.
Arguments Fail {A} e.

(** Observable events: a command run to its end with [subprocess.run]
  (with [capture_output], and its return code unless it could not be
  started), a command fed through a pipe with [Popen] and [communicate],
  a printed line. *)
Inductive event :=
| Ran (command : list str) (capture_output : bool) (code : option Z)
| Piped (command : list str) (input : str) (code : option Z)
| Said (text : str).

(** The operating system: it runs a command to its end, or fails to start
  it; [error_text] is the [str()] of a [CalledProcessError]. *)
Record OS (St : Type) := {
os_run : list str -> bool -> St -> St * outcome completed;
os_communicate : list str -> str -> St -> St * outcome completed;
error_text : list str -> Z -> str }.

Definition P (St A : Type) := St -> res A * St * list event.

Definition ret {St A} (a : A) : P St A := fun st => (Done a, st, []).

Definition bind {St A B} (m : P St A) (f : A -> P St B) : P St B :=
fun st =>
  match m st with
  | (Done a, st1, t1) =>
      match f a st1 with (r, st2, t2) => (r, st2, t1 ++ t2) end
  | (Fail e, st1, t1) => (Fail e, st1, t1)
  end.

Definition raise {St A} (e : exn) : P St A := fun st => (Fail e, st, []).

Definition sys_exit {St A} (code : Z) : P St A := raise (Exit code).

Definition say {St} (text : str) : P St unit := fun st => (Done tt, st, [Said text]).

Definition log_info {St} (message : str) : P St unit := say (info_line message).
Definition log_warn {St} (message : str) : P St unit := say (warn_line message).
Definition log_error {St} (message : str) : P St unit := say (error_line message).

Definition value_of {St A} (x : res A * St * list event) : res A := fst (fst x).
Definition state_of {St A} (x : res A * St * list event) : St := snd (fst x).
Definition trace_of {St A} (x : res A * St * list event) : list event := snd x.

Module Notations.
Notation "x <~ m ;; k" := (bind m (fun x => k))
(at level 61, m at next level, right associativity).
Notation "m ;;; k" := (bind m (fun _ => k))
(at level 61, right associativity).
End Notations.
Import Notations.

(** The parsed command line. *)
Record Args := {
arg_type : db_type;
arg_overrides : overrides }.

Section WithOS.
Context {St : Type} (O : OS St).

(** [subprocess.run(command, check=check, capture_output=capture_output,
text=True)]: with [check], a return code other than 0 raises
[CalledProcessError]. *)
Definition subprocess_run (command : list str) (check capture_output : bool)
: P St completed :=
fun st =>
match os_run O command capture_output st with
| (st1, Raises text) =>
    (Fail (OtherError text), st1, [Ran command capture_output None])
| (st1, Returns result) =>
    (if check && negb (returncode result =? 0)%Z
     then Fail (CalledProcessError command (returncode result) (stderr result))
     else Done result,
     st1, [Ran command capture_output (Some (returncode result))])
end.

(** [run_command] (lines 47-62). *)
Definition run_command (command : list str) (check capture_output : bool)
: P St (option completed) :=
fun st =>
match subprocess_run command check capture_output st with
| (Done result, st1, t1) => (Done (Some result), st1, t1)
| (Fail (CalledProcessError cmd code err), st1, t1) =>
    match
      (log_error (u "Command failed: " ++ join (u " ") command) ;;;
       log_error (u "Error: "
                  ++ (if capture_output then err else error_text O cmd code)) ;;;
       (if check then sys_exit 1 else ret tt) ;;;
       ret None) st1
    with (r, st2, t2) => (r, st2, t1 ++ t2)
    end
| (Fail e, st1, t1) => (Fail e, st1, t1)
end.

(** [result.returncode] on what [run_command] returned. *)
Definition returncode_of (result : option completed) : P St Z :=
match result with
| Some r => ret (returncode r)
| None => raise (OtherError (u "'NoneType' object has no attribute 'returncode'"))
end.

(** [Popen(command, stdin=PIPE, stdout=PIPE, stderr=PIPE, text=True)]
followed by [communicate(input)]. *)
Definition popen_communicate (command : list str) (input : str) : P St completed :=
fun st =>
match os_communicate O command input st with
| (st1, Raises text) => (Fail (OtherError text), st1, [Piped command input None])
| (st1, Returns result) =>
    (Done result, st1, [Piped command input (Some (returncode result))])
end.

Definition which_psql : list str := [u "which"; u "psql"].
Definition which_mysql : list str := [u "which"; u "mysql"].
Definition apt_update : list str := [u "sudo"; u "apt-get"; u "update"].
Definition apt_install_postgresql : list str :=
[u "sudo"; u "apt-get"; u "install"; u "-y"; u "postgresql"; u "postgresql-contrib"].
Definition apt_install_mysql : list str :=
[u "sudo"; u "apt-get"; u "install"; u "-y"; u "mysql-server"].
Definition systemctl (verb service : string) : list str :=
[u "sudo"; u "systemctl"; u verb; u service].
Definition psql : list str := [u "sudo"; u "-u"; u "postgres"; u "psql"].
Definition mysql_client : list str := [u "sudo"; u "mysql"].

(** The text piped into [psql] (lines 83-104). *)
Definition postgresql_commands (config : config) : str :=
newline
++ u "DO $$" ++ newline
++ u "BEGIN" ++ newline
++ u "    IF NOT EXISTS (SELECT FROM pg_user WHERE usename = '" ++ db_user config ++ u "') THEN" ++ newline
++ u "        CREATE USER " ++ db_user config ++ u " WITH PASSWORD '" ++ db_password config ++ u "';" ++ newline
++ u "    END IF;" ++ newline
++ u "END" ++ newline
++ u "$$;" ++ newline
++ newline
++ u "SELECT 'CREATE DATABASE " ++ db_name config ++ u "'" ++ newline
++ u "WHERE NOT EXISTS (SELECT FROM pg_database WHERE datname = '" ++ db_name config ++ u "')\gexec" ++ newline
++ newline
++ u "GRANT ALL PRIVILEGES ON DATABASE " ++ db_name config ++ u " TO " ++ db_user config ++ u ";" ++ newline
++ newline
++ u "\c " ++ db_name config ++ newline
++ newline
++ u "GRANT ALL ON SCHEMA public TO " ++ db_user config ++ u ";" ++ newline
++ u "GRANT ALL PRIVILEGES ON ALL TABLES IN SCHEMA public TO " ++ db_user config ++ u ";" ++ newline
++ u "GRANT ALL PRIVILEGES ON ALL SEQUENCES IN SCHEMA public TO " ++ db_user config ++ u ";" ++ newline
++ u "ALTER DEFAULT PRIVILEGES IN SCHEMA public GRANT ALL ON TABLES TO " ++ db_user config ++ u ";" ++ newline
++ u "ALTER DEFAULT PRIVILEGES IN SCHEMA public GRANT ALL ON SEQUENCES TO " ++ db_user config ++ u ";" ++ newline.

(** The text piped into [mysql] (lines 142-152). *)
Definition mysql_commands (config : config) : str :=
newline
++ u "CREATE DATABASE IF NOT EXISTS " ++ db_name config ++ u " CHARACTER SET utf8mb4 COLLATE utf8mb4_unicode_ci;" ++ newline
++ newline
++ u "CREATE USER IF NOT EXISTS '" ++ db_user config ++ u "'@'localhost' IDENTIFIED BY '" ++ db_password config ++ u "';" ++ newline
++ u "CREATE USER IF NOT EXISTS '" ++ db_user config ++ u "'@'%' IDENTIFIED BY '" ++ db_password config ++ u "';" ++ newline
++ newline
++ u "GRANT ALL PRIVILEGES ON " ++ db_name config ++ u ".* TO '" ++ db_user config ++ u "'@'localhost';" ++ newline
++ u "GRANT ALL PRIVILEGES ON " ++ db_name config ++ u ".* TO '" ++ db_user config ++ u "'@'%';" ++ newline
++ newline
++ u "FLUSH PRIVILEGES;" ++ newline.

Definition postgresql_connection_string (config : config) : str :=
u "postgresql://" ++ db_user config ++ u ":" ++ db_password config ++ u "@" ++ db_host config ++ u ":" ++ db_port config ++ u "/" ++ db_name config.

Definition mysql_connection_string (config : config) : str :=
u "mysql://" ++ db_user config ++ u ":" ++ db_password config ++ u "@" ++ db_host config ++ u ":" ++ db_port config ++ u "/" ++ db_name config.

(** [setup_postgresql] (lines 64-121). *)
Definition setup_postgresql (config : config) : P St unit :=
log_info (u "Setting up PostgreSQL database...") ;;;
result <~ run_command which_psql false true ;;
code <~ returncode_of result ;;
(if negb (code =? 0)%Z then
 log_warn (u "PostgreSQL is not installed. Installing...") ;;;
 run_command apt_update true false ;;;
 run_command apt_install_postgresql true false ;;;
 ret tt
else ret tt) ;;;
log_info (u "Starting PostgreSQL service...") ;;;
run_command (systemctl "start" "postgresql") true false ;;;
run_command (systemctl "enable" "postgresql") true false ;;;
log_info (u "Creating database '" ++ db_name config ++ u "' and user '"
        ++ db_user config ++ u "'...") ;;;
process <~ popen_communicate psql (postgresql_commands config) ;;
(if negb (returncode process =? 0)%Z then
 log_error (u "Failed to create database: " ++ stderr process) ;;;
 sys_exit 1
else ret tt) ;;;
log_info (u "PostgreSQL setup complete!") ;;;
log_info (u "Connection string: " ++ postgresql_connection_string config).

(** [setup_mysql] (lines 123-169). *)
Definition setup_mysql (config : config) : P St unit :=
log_info (u "Setting up MySQL/MariaDB database...") ;;;
result <~ run_command which_mysql false true ;;
code <~ returncode_of result ;;
(if negb (code =? 0)%Z then
 log_warn (u "MySQL is not installed. Installing...") ;;;
 run_command apt_update true false ;;;
 run_command apt_install_mysql true false ;;;
 ret tt
else ret tt) ;;;
log_info (u "Starting MySQL service...") ;;;
run_command (systemctl "start" "mysql") true false ;;;
run_command (systemctl "enable" "mysql") true false ;;;
log_info (u "Creating database '" ++ db_name config ++ u "' and user '"
        ++ db_user config ++ u "'...") ;;;
process <~ popen_communicate mysql_client (mysql_commands config) ;;
(if negb (returncode process =? 0)%Z then
 log_error (u "Failed to create database: " ++ stderr process) ;;;
 sys_exit 1
else ret tt) ;;;
log_info (u "MySQL setup complete!") ;;;
log_info (u "Connection string: " ++ mysql_connection_string config).

(** The dispatch on [args.type] (lines 223-226). *)
Definition setup (t : db_type) (config : config) : P St unit :=
match t with
| postgres => setup_postgresql config
| mysql => setup_mysql config
end.

(** [main] (lines 171-229), after [parse_args]. *)
Definition main (getenv : str -> option str) (args : Args) : P St unit :=
let config := build_config getenv (arg_type args) (arg_overrides args) in
log_info (u "SQL Database Setup Script") ;;;
log_info (u "==========================") ;;;
log_info (u "Database Type: " ++ db_type_name (arg_type args)) ;;;
log_info (u "Database Name: " ++ db_name config) ;;;
log_info (u "Database User: " ++ db_user config) ;;;
log_info [] ;;;
setup (arg_type args) config ;;;
log_info [] ;;;
log_info (u "Setup completed successfully!").

End WithOS.

(** The commands started in a trace, in order. *)
Definition commands (t : list event) : list (list str) :=
flat_map (fun e => match e with
                   | Ran command _ _ => [command]
                   | Piped command _ _ => [command]
                   | Said _ => []
                   end) t.


Definition is_which (command : list str) : bool :=
match command with
| w :: _ => str_eqb w (u "which")
| [] => false
end.

(** Every command but [which] that ran to its end returned 0. *)
Definition all_returned_zero (t : list event) : Prop :=
forall e, In e t ->
  match e with
  | Ran command _ (Some code) => is_which command = true \/ code = 0%Z
  | Piped _ _ (Some code) => code = 0%Z
  | Ran _ _ None | Piped _ _ None => False
  | Said _ => True
  end.


(** A system on which every command returns the given code. *)
Definition failing (code : Z) : OS unit :=
{| os_run := fun _ _ st =>
     (st, Returns {| returncode := code; stdout := []; stderr := u "denied" |});
   os_communicate := fun _ _ st =>
     (st, Returns {| returncode := code; stdout := []; stderr := u "denied" |});
   error_text := fun _ _ => u "returned non-zero exit status" |}.

End SetupDatabase.

(** ** Vocabulary of the further properties *)
Module Reader.

Definition is_fetchall (c : call) : bool :=
match c with CFetchall => true | _ => false end.

(** The text that [describe_table] sends for a table name. *)
Definition describe_query (t : db_type) (table_name : str) : str :=
match t with
| postgres =>
    join newline
      [ [];
        u "            SELECT ";
        u "                column_name,";
        u "                data_type,";
        u "                character_maximum_length,";
        u "                is_nullable,";
        u "                column_default";
        u "            FROM information_schema.columns";
        u "            WHERE table_name = '" ++ table_name ++ u "'";
        u "            ORDER BY ordinal_position;";
        u "        " ]
| mysql => u "DESCRIBE " ++ table_name ++ u ";"
end.

(** The values under the key [k] of every row, if every row has the key. *)
Fixpoint column (k : str) (rows : list row) : option (list value) :=
match rows with
| [] => Some []
| r :: rest =>
    match getitem r k, column k rest with
    | Some v, Some vs => Some (v :: vs)
    | _, _ => None
    end
end.

(** Rows that agree on the cells of the given columns. *)
Definition same_cells (headers : list str) (r r' : row) : Prop :=
forall h, In h headers -> ReadDatabase.cell r h = ReadDatabase.cell r' h.

End Reader.
Import Reader.

(** ** Vocabulary of whole runs *)
Module Runs.

(** What connecting prints and calls when both calls return. *)
Definition connected_events (t : db_type) (c : config) : list event :=
[Call (CConnect t c) None; Call CCursor None;
 Stdout (info_line (u "Connected to " ++ CreateSchema.vendor t
                    ++ u " database: " ++ db_name c))].

(** The value of a [try ... finally]: an exception of the [finally]
  clause replaces the outcome of the body. *)
Definition after_finally {A} (r : res A) (fin : res unit) : res A :=
match fin with Val _ => r | Exc e => Exc e end.

(** A call that ends a transaction: a commit that returned, or a
  rollback. *)
Definition ends_transaction (cr : call * option str) : bool :=
match cr with
| (CCommit, None) => true
| (CRollback, _) => true
| _ => false
end.

(** The number of transactions that a trace ends. *)
Definition finished (t : list event) : nat :=
List.length (filter ends_transaction (driver_calls t)).

(** [table in EXAMPLE_SCHEMAS] *)
Definition is_example (table : str) : bool :=
match getitem CreateSchema.EXAMPLE_SCHEMAS table with
| Some _ => true
| None => false
end.

(** [[t.strip() for t in args.example.split(',')]] *)
Definition example_tables (example : str) : list str :=
map strip (split_on 44%N example).

(** The body of the loop of [main] over the example tables
  ([create_schema.py], lines 353-360). *)
Definition example_body {St : Type} (D : Driver St) (t : db_type) (table : str)
: M St unit :=
match getitem CreateSchema.EXAMPLE_SCHEMAS table with
| None => log_warn (u "Unknown example table: " ++ table)
| Some schemas =>
    log_info (u "Creating example table: " ++ table) ;;
    _ <- CreateSchema.execute_sql D (schemas t) ;;
    ret tt
end.

End Runs.
Import Runs.

(** ** Further concrete drivers and inputs *)
Module MoreFixtures.

(** Two rows of [information_schema.tables]. *)
Definition two_tables : list row :=
[ [(u "table_name", VStr (u "posts"))];
  [(u "table_name", VStr (u "users"))] ].

(** Every call succeeds and [fetchall] returns [rows]. *)
Definition serving (rows : list row) : Driver unit :=
Fixtures.scripted (fun _ => None) None None None rows.

(** A second row with a key that the first row does not have. *)
Definition with_extra_key : list row :=
[ [(u "id", VInt 2); (u "note", VStr (u "not shown"))] ].

Definition without_extra_key : list row :=
[ [(u "id", VInt 2)] ].

(** An interpreter without any driver package. *)
Definition no_driver_env : Env :=
{| getenv := Fixtures.no_vars;
   POSTGRES_AVAILABLE := false;
   MYSQL_AVAILABLE := false;
   path_exists := fun _ => false;
   read_file := fun _ => Raises (u "No such file or directory");
   date_output := [];
   unicode_upper := fun c => [c];
   json_dumps := fun _ => [] |}.

(** [--type postgres --schema schema.sql] *)
Definition schema_file : CreateSchema.Args :=
{| CreateSchema.arg_type := postgres;
   CreateSchema.arg_schema := Some (u "schema.sql");
   CreateSchema.arg_example := None;
   CreateSchema.arg_generate_example := false;
   CreateSchema.arg_overrides := Fixtures.no_flags |}.

(** [--type postgres] alone. *)
Definition no_action : CreateSchema.Args :=
{| CreateSchema.arg_type := postgres;
   CreateSchema.arg_schema := None;
   CreateSchema.arg_example := None;
   CreateSchema.arg_generate_example := false;
   CreateSchema.arg_overrides := Fixtures.no_flags |}.

(** [--type postgres --example users,nothing,posts] *)
Definition three_examples : CreateSchema.Args :=
{| CreateSchema.arg_type := postgres;
   CreateSchema.arg_schema := None;
   CreateSchema.arg_example := Some (u "users, nothing ,posts");
   CreateSchema.arg_generate_example := false;
   CreateSchema.arg_overrides := Fixtures.no_flags |}.

(** [--type mysql --query 'DROP TABLE missing'] *)
Definition drop_missing : ReadDatabase.Args :=
{| ReadDatabase.arg_type := mysql;
   ReadDatabase.arg_query := Some (u "DROP TABLE missing");
   ReadDatabase.arg_list_tables := false;
   ReadDatabase.arg_describe := None;
   ReadDatabase.arg_format := u "table";
   ReadDatabase.arg_overrides := Fixtures.no_flags |}.

(** [--type mysql --list-tables] *)
Definition mysql_list_tables : ReadDatabase.Args :=
{| ReadDatabase.arg_type := mysql;
   ReadDatabase.arg_query := None;
   ReadDatabase.arg_list_tables := true;
   ReadDatabase.arg_describe := None;
   ReadDatabase.arg_format := u "table";
   ReadDatabase.arg_overrides := Fixtures.no_flags |}.

(** [--type mysql --generate-example] *)
Definition generate_only : CreateSchema.Args :=
{| CreateSchema.arg_type := mysql;
   CreateSchema.arg_schema := None;
   CreateSchema.arg_example := None;
   CreateSchema.arg_generate_example := true;
   CreateSchema.arg_overrides := Fixtures.no_flags |}.

End MoreFixtures.

(* ================================================================== *)
(** * Part II: theorems                                                *)
(* ================================================================== *)

Unset Implicit Arguments.

(** ** Facts about Python strings *)
Section StrFacts.

Lemma split_on_not_nil sep s : split_on sep s <> [].
Proof.
  destruct s as [|c s]; simpl; [discriminate|].
  destruct (c =? sep)%N; [discriminate|].
  destruct (split_on sep s); discriminate.
Qed.

(** Joining the fragments with the separator gives the text back. *)
Lemma join_split_on sep s : join [sep] (split_on sep s) = s.
Proof.
  induction s as [|c s IH]; simpl; [reflexivity|].
  destruct (N.eqb_spec c sep) as [->|Hne].
  - pose proof (split_on_not_nil sep s) as Hnn.
    destruct (split_on sep s) as [|f fs]; [congruence|].
    simpl. simpl in IH. rewrite IH. reflexivity.
  - pose proof (split_on_not_nil sep s) as Hnn.
    destruct (split_on sep s) as [|f fs]; [congruence|].
    simpl in *. destruct fs; simpl in *; subst; reflexivity.
Qed.

(** No fragment contains the separator. *)
Lemma split_on_no_sep sep s :
  Forall (fun f => ~ In sep f) (split_on sep s).
Proof.
  induction s as [|c s IH]; simpl.
  - constructor; [intros []|constructor].
  - destruct (N.eqb_spec c sep) as [->|Hne].
    + constructor; [intros []|assumption].
    + destruct (split_on sep s) as [|f fs].
      * constructor; [|constructor]. intros [H|[]]. congruence.
      * inversion IH; subst. constructor; [|assumption].
        intros [H|H]; [congruence|contradiction].
Qed.

Lemma split_on_clean sep f : ~ In sep f -> split_on sep f = [f].
Proof.
  induction f as [|c f IH]; simpl; intros H; [reflexivity|].
  destruct (N.eqb_spec c sep) as [->|Hne]; [tauto|].
  rewrite IH by tauto. reflexivity.
Qed.

Lemma split_on_app sep f rest :
  ~ In sep f -> split_on sep (f ++ sep :: rest) = f :: split_on sep rest.
Proof.
  induction f as [|c f IH]; simpl; intros H.
  - rewrite N.eqb_refl. reflexivity.
  - destruct (N.eqb_spec c sep) as [->|Hne]; [tauto|].
    rewrite IH by tauto. reflexivity.
Qed.

(** Splitting a joined non-empty list of separator-free strings gives
    the list back. *)
Lemma split_on_join sep l :
  l <> [] -> Forall (fun f => ~ In sep f) l ->
  split_on sep (join [sep] l) = l.
Proof.
  induction l as [|x xs IH]; intros Hne Hall; [congruence|].
  inversion Hall as [|? ? Hx Hxs]; subst.
  destruct xs as [|y ys].
  - simpl. apply split_on_clean; assumption.
  - change (join [sep] (x :: y :: ys)) with (x ++ sep :: join [sep] (y :: ys)).
    rewrite split_on_app by assumption.
    rewrite IH; [reflexivity|discriminate|assumption].
Qed.

Lemma lstrip_decompose s :
  exists ws, s = ws ++ lstrip s /\ forallb isspace ws = true.
Proof.
  induction s as [|c s [ws [E Hws]]]; simpl.
  - exists []. split; reflexivity.
  - destruct (isspace c) eqn:Hc.
    + exists (c :: ws). simpl. rewrite Hc, Hws. split; [congruence|reflexivity].
    + exists []. split; reflexivity.
Qed.

Lemma head_ok_lstrip s : head_ok (lstrip s) = true.
Proof.
  induction s as [|c s IH]; simpl; [reflexivity|].
  destruct (isspace c) eqn:Hc; [assumption|]. simpl. rewrite Hc. reflexivity.
Qed.

Lemma lstrip_head_ok s : head_ok s = true -> lstrip s = s.
Proof.
  destruct s as [|c s]; simpl; [reflexivity|].
  destruct (isspace c); [discriminate|reflexivity].
Qed.

Lemma rstrip_decompose s :
  exists ws, s = rstrip s ++ ws /\ forallb isspace ws = true.
Proof.
  unfold rstrip. destruct (lstrip_decompose (rev s)) as [ws [E Hws]].
  exists (rev ws). split.
  - rewrite <- rev_app_distr, <- E, rev_involutive. reflexivity.
  - rewrite forallb_forall in *. intros x Hx. apply Hws, in_rev, Hx.
Qed.

Lemma head_ok_rstrip s : head_ok s = true -> head_ok (rstrip s) = true.
Proof.
  intros H. destruct (rstrip_decompose s) as [ws [E _]].
  destruct (rstrip s) as [|c r]; [reflexivity|].
  rewrite E in H. exact H.
Qed.

Lemma stripped_strip s : stripped (strip s) = true.
Proof.
  unfold stripped, strip. apply andb_true_intro. split.
  - apply head_ok_rstrip, head_ok_lstrip.
  - unfold rstrip. rewrite rev_involutive. apply head_ok_lstrip.
Qed.

Lemma strip_stripped s : stripped s = true -> strip s = s.
Proof.
  unfold stripped, strip. intros H. apply andb_prop in H as [H1 H2].
  rewrite (lstrip_head_ok _ H1). unfold rstrip.
  rewrite (lstrip_head_ok _ H2). apply rev_involutive.
Qed.

Lemma strip_idempotent s : strip (strip s) = strip s.
Proof. apply strip_stripped, stripped_strip. Qed.

Lemma lstrip_incl s c : In c (lstrip s) -> In c s.
Proof.
  destruct (lstrip_decompose s) as [ws [E _]]. intros H.
  rewrite E. apply in_or_app. right. exact H.
Qed.

Lemma strip_incl s c : In c (strip s) -> In c s.
Proof.
  unfold strip, rstrip. intros H.
  apply lstrip_incl. apply in_rev. apply lstrip_incl. apply in_rev in H. exact H.
Qed.

(** A trimmed text is the original without a run of white space at
    each end. *)
Lemma strip_decompose s :
  exists l r, s = l ++ strip s ++ r
              /\ forallb isspace l = true /\ forallb isspace r = true.
Proof.
  destruct (lstrip_decompose s) as [l [El Hl]].
  destruct (rstrip_decompose (lstrip s)) as [r [Er Hr]].
  exists l, r. unfold strip. rewrite <- Er. auto.
Qed.

Lemma lstrip_blank s : forallb isspace s = true -> lstrip s = [].
Proof.
  induction s as [|c s IH]; simpl; [reflexivity|].
  intros H. apply andb_prop in H as [Hc Hs]. rewrite Hc. exact (IH Hs).
Qed.

Lemma strip_blank s : forallb isspace s = true -> strip s = [].
Proof. intros H. unfold strip. rewrite (lstrip_blank s H). reflexivity. Qed.

Lemma split_on_incl sep s f c :
  In f (split_on sep s) -> In c f -> In c s.
Proof.
  revert f. induction s as [|a s IH]; simpl; intros f Hf Hc.
  - destruct Hf as [<-|[]]. exact Hc.
  - destruct (a =? sep)%N.
    + destruct Hf as [<-|Hf]; [destruct Hc|]. right. exact (IH f Hf Hc).
    + pose proof (split_on_not_nil sep s) as Hnn.
      destruct (split_on sep s) as [|g gs]; [congruence|].
      destruct Hf as [<-|Hf].
      * destruct Hc as [->|Hc]; [left; reflexivity|].
        right. apply (IH g); [left; reflexivity|exact Hc].
      * right. apply (IH f); [right; exact Hf|exact Hc].
Qed.

Lemma split_on_trailing sep s :
  split_on sep (s ++ [sep]) = split_on sep s ++ [[]].
Proof.
  induction s as [|a s IH]; simpl.
  - rewrite N.eqb_refl. reflexivity.
  - rewrite IH. destruct (a =? sep)%N; [reflexivity|].
    pose proof (split_on_not_nil sep s) as Hnn.
    destruct (split_on sep s) as [|g gs]; [congruence|reflexivity].
Qed.

Lemma truthy_nonempty (s : str) : truthy s = true <-> s <> [].
Proof. destruct s; simpl; split; congruence. Qed.

End StrFacts.

(** ** The statement list *)
Section ScriptFacts.

Lemma filter_map_swap {A B} (f : A -> B) (p : B -> bool) l :
  map f (filter (fun x => p (f x)) l) = filter p (map f l).
Proof.
  induction l as [|x l IH]; simpl; [reflexivity|].
  destruct (p (f x)); simpl; rewrite IH; reflexivity.
Qed.

Lemma filter_subseq {A} (p : A -> bool) l : subseq (filter p l) l.
Proof.
  induction l as [|x l IH]; simpl; [constructor|].
  destruct (p x); constructor; assumption.
Qed.

Lemma statements_refine sql : statements sql = spec_statements sql.
Proof. apply filter_map_swap. Qed.

Lemma statements_clean sql : Forall clean (statements sql).
Proof.
  rewrite statements_refine. unfold spec_statements.
  apply Forall_forall. intros x Hx.
  apply filter_In in Hx as [Hin Hne].
  apply in_map_iff in Hin as [f [<- Hf]].
  repeat split.
  - apply truthy_nonempty, Hne.
  - apply stripped_strip.
  - intros Hs. apply strip_incl in Hs.
    pose proof (split_on_no_sep semicolon sql) as Hall.
    rewrite Forall_forall in Hall. exact (Hall f Hf Hs).
Qed.

(** A list of clean statements is what splitting its rejoined text gives. *)
Lemma statements_rejoin l : Forall clean l -> statements (rejoin l) = l.
Proof.
  intros Hall. destruct l as [|x xs]; [reflexivity|].
  unfold statements, rejoin.
  rewrite split_on_join.
  - induction Hall as [|y ys [Hne [Hst Hsemi]] Hys IH]; [reflexivity|].
    simpl. rewrite (strip_stripped _ Hst).
    destruct y; [congruence|]. simpl. rewrite (strip_stripped _ Hst).
    f_equal. exact IH.
  - discriminate.
  - eapply Forall_impl; [|exact Hall]. intros a [_ [_ H]]. exact H.
Qed.

(** A script of white space and semicolons only has no statement. *)
Lemma statements_blank sql :
  (forall c, In c sql -> c = semicolon \/ isspace c = true) ->
  statements sql = [].
Proof.
  intros Hblank. unfold statements.
  assert (Hall : forall f, In f (split_on semicolon sql) -> truthy (strip f) = false).
  { intros f Hf. rewrite strip_blank; [reflexivity|].
    apply forallb_forall. intros c Hc.
    destruct (Hblank c (split_on_incl _ _ _ _ Hf Hc)) as [->|H]; [|exact H].
    pose proof (split_on_no_sep semicolon sql) as Hns.
    rewrite Forall_forall in Hns. destruct (Hns f Hf Hc). }
  induction (split_on semicolon sql) as [|f fs IH]; [reflexivity|].
  simpl. rewrite (Hall f (or_introl eq_refl)).
  apply IH. intros g Hg. apply Hall. right. exact Hg.
Qed.

(** A trailing semicolon adds no statement. *)
Lemma statements_trailing_semicolon sql :
  statements (sql ++ [semicolon]) = statements sql.
Proof.
  unfold statements. rewrite split_on_trailing, filter_app. simpl.
  rewrite app_nil_r. reflexivity.
Qed.

End ScriptFacts.

(** C2. The statement list of a script is its text split on [;], every
    fragment trimmed, the fragments that are empty after trimming
    discarded: the fragments join back to the text with [;] and hold no
    [;], the order of the surviving fragments is kept, every statement is
    trimmed and none is empty, and the example script of the
    specification yields its two statements. *)
Theorem C2_statements_split_trim_discard :
  (forall sql : str,
      join [semicolon] (split_on semicolon sql) = sql
      /\ Forall (fun f => ~ In semicolon f) (split_on semicolon sql)
      /\ statements sql = spec_statements sql
      /\ subseq (statements sql) (map strip (split_on semicolon sql))
      /\ Forall (fun s => stripped s = true) (statements sql)
      /\ Forall (fun s => s <> []) (statements sql))
  /\ statements (u "CREATE TABLE t(x int);  ; INSERT INTO t VALUES (1);")
     = [u "CREATE TABLE t(x int)"; u "INSERT INTO t VALUES (1)"].
Proof.
  split; [|vm_compute; reflexivity].
  intros sql. repeat split.
  - apply join_split_on.
  - apply split_on_no_sep.
  - apply statements_refine.
  - rewrite statements_refine. apply filter_subseq.
  - eapply Forall_impl; [|apply statements_clean]. intros a [_ [H _]]. exact H.
  - eapply Forall_impl; [|apply statements_clean]. intros a [H _]. exact H.
Qed.

(** C6. Splitting a script, rejoining the statements with [;] and
    splitting again gives the statement list of the first split. *)
Theorem C6_split_rejoin_idempotent (s : str) :
  statements (rejoin (statements s)) = statements s.
Proof. apply statements_rejoin, statements_clean. Qed.
(** ** Reasoning about computations *)
Section MonadFacts.
Context {St : Type}.

Lemma bind_val {A B} {m : M St A} (f : A -> M St B) {w a w1 t1} :
  m w = (Val a, w1, t1) ->
  bind m f w = (value_of (f a w1), world_of (f a w1), t1 ++ trace_of (f a w1)).
Proof.
  intros H. unfold bind. rewrite H.
  destruct (f a w1) as [[r w2] t2]. reflexivity.
Qed.

Lemma bind_pure {A B} {m : M St A} (f : A -> M St B) {w a} :
  m w = (Val a, w, []) -> bind m f w = f a w.
Proof.
  intros H. unfold bind. rewrite H.
  destruct (f a w) as [[r w2] t2]. reflexivity.
Qed.

Lemma bind_exc {A B} {m : M St A} (f : A -> M St B) {w e w1 t1} :
  m w = (Exc e, w1, t1) -> bind m f w = (Exc e, w1, t1).
Proof. intros H. unfold bind. rewrite H. reflexivity. Qed.


Lemma driver_calls_app t1 t2 :
  driver_calls (t1 ++ t2) = driver_calls t1 ++ driver_calls t2.
Proof. unfold driver_calls. apply flat_map_app. Qed.



End MonadFacts.

(** ** The batch executor *)
Section BatchFacts.
Context {St : Type} (D : Driver St).

Lemma driver_calls_attempted l : driver_calls (attempted l) = executed l.
Proof.
  induction l as [|s l IH]; [reflexivity|].
  unfold attempted, executed, driver_calls in *. simpl. f_equal. exact IH.
Qed.

Lemma execute_statements_cons s l :
  CreateSchema.execute_statements D (s :: l)
  = bind (CreateSchema.execute_one D s) (fun _ => CreateSchema.execute_statements D l).
Proof. reflexivity. Qed.

Lemma execute_one_connected s st :
  truthy s = true ->
  CreateSchema.execute_one D s (connected st)
  = (result_of (snd (d_execute D s st)), connected (fst (d_execute D s st)),
     [Stdout (executing_line s); Call (CExecute s) (raised_of (snd (d_execute D s st)))]).
Proof.
  intros Hs. unfold CreateSchema.execute_one. rewrite Hs.
  unfold bind, log_info, print, on_cursor, driver_call. simpl.
  destruct (d_execute D s st) as [st' o]. reflexivity.
Qed.

Lemma execute_statements_ok l : forall st st1,
  Forall (fun s => truthy s = true) l ->
  all_succeed D l st = Some st1 ->
  CreateSchema.execute_statements D l (connected st)
  = (Val tt, connected st1, attempted l).
Proof.
  induction l as [|s l IH]; intros st st1 Ht Hok.
  - simpl in Hok. injection Hok as <-. reflexivity.
  - inversion Ht as [|? ? Hs Hl]; subst. simpl in Hok.
    pose proof (execute_one_connected s st Hs) as Hone.
    destruct (d_execute D s st) as [st' o] eqn:He.
    destruct o as [[]|text]; [|discriminate].
    rewrite execute_statements_cons, (bind_val _ Hone).
    simpl fst. rewrite (IH st' st1 Hl Hok). reflexivity.
Qed.

Lemma execute_statements_fail pre : forall B post msg st st1 st2,
  Forall (fun s => truthy s = true) (pre ++ [B]) ->
  all_succeed D pre st = Some st1 ->
  d_execute D B st1 = (st2, Raises msg) ->
  CreateSchema.execute_statements D (pre ++ B :: post) (connected st)
  = (Exc (Exception msg), connected st2,
     attempted pre ++ [Stdout (executing_line B); Call (CExecute B) (Some msg)]).
Proof.
  induction pre as [|s pre IH]; intros B post msg st st1 st2 Ht Hok HB.
  - simpl in Hok. injection Hok as <-.
    inversion Ht as [|? ? Hs _]; subst.
    pose proof (execute_one_connected B st Hs) as Hone. rewrite HB in Hone.
    simpl app. rewrite execute_statements_cons.
    exact (bind_exc _ Hone).
  - inversion Ht as [|? ? Hs Hl]; subst. simpl in Hok.
    pose proof (execute_one_connected s st Hs) as Hone.
    destruct (d_execute D s st) as [st' o] eqn:He.
    destruct o as [[]|text]; [|discriminate].
    simpl app. rewrite execute_statements_cons, (bind_val _ Hone).
    simpl fst. rewrite (IH B post msg st' st1 st2 Hl Hok HB). reflexivity.
Qed.

Lemma statements_truthy sql : Forall (fun s => truthy s = true) (statements sql).
Proof.
  eapply Forall_impl; [|apply statements_clean].
  intros a [H _]. apply truthy_nonempty, H.
Qed.

(** The whole run of [execute_sql] when a statement raises. *)
Lemma execute_sql_failure sql pre B post msg st st1 st2 :
  statements sql = pre ++ B :: post ->
  all_succeed D pre st = Some st1 ->
  d_execute D B st1 = (st2, Raises msg) ->
  CreateSchema.execute_sql D sql (connected st)
  = (result_of (match snd (d_rollback D st2) with
                | Returns _ => Returns false
                | Raises text => Raises text
                end),
     connected (fst (d_rollback D st2)),
     attempted pre
     ++ [Stdout (executing_line B); Call (CExecute B) (Some msg);
         Stdout (error_line (u "Failed to execute SQL: " ++ msg));
         Call CRollback (raised_of (snd (d_rollback D st2)))]).
Proof.
  intros Hsql Hok HB.
  assert (Ht : Forall (fun s => truthy s = true) (pre ++ [B])).
  { pose proof (statements_truthy sql) as H. rewrite Hsql in H.
    rewrite Forall_app in *. destruct H as [H1 H2]. split; [exact H1|].
    inversion H2; subst. constructor; [assumption|constructor]. }
  unfold CreateSchema.execute_sql, try_except.
  rewrite Hsql.
  rewrite (bind_exc _ (execute_statements_fail pre B post msg st st1 st2 Ht Hok HB)).
  unfold bind, log_error, print, on_connection, driver_call. simpl.
  destruct (d_rollback D st2) as [st3 o].
  destruct o as [[]|text]; simpl; rewrite <- app_assoc; reflexivity.
Qed.

(** The whole run of [execute_sql] when every statement executes. *)
Lemma execute_sql_all_executed sql st st1 :
  all_succeed D (statements sql) st = Some st1 ->
  CreateSchema.execute_sql D sql (connected st)
  = match d_commit D st1 with
    | (st2, Returns _) =>
        (Val true, connected st2,
         attempted (statements sql)
         ++ [Call CCommit None;
             Stdout (success_line (u "Schema created successfully!"))])
    | (st2, Raises text) =>
        (result_of (match snd (d_rollback D st2) with
                    | Returns _ => Returns false
                    | Raises text' => Raises text'
                    end),
         connected (fst (d_rollback D st2)),
         attempted (statements sql)
         ++ [Call CCommit (Some text);
             Stdout (error_line (u "Failed to execute SQL: " ++ text));
             Call CRollback (raised_of (snd (d_rollback D st2)))])
    end.
Proof.
  intros Hok.
  pose proof (execute_statements_ok _ _ _ (statements_truthy sql) Hok) as Hrun.
  unfold CreateSchema.execute_sql, try_except.
  unfold bind at 1. rewrite Hrun.
  unfold bind, log_success, log_error, print, on_connection, driver_call. simpl.
  destruct (d_commit D st1) as [st2 o]. destruct o as [[]|text]; simpl.
  - reflexivity.
  - destruct (d_rollback D st2) as [st3 o].
    destruct o as [[]|text']; simpl; rewrite <- app_assoc; reflexivity.
Qed.

End BatchFacts.

Section BatchCounting.

Lemma count_calls_app p t1 t2 :
  count_calls p (t1 ++ t2) = count_calls p t1 + count_calls p t2.
Proof.
  unfold count_calls. rewrite driver_calls_app, filter_app, length_app.
  reflexivity.
Qed.

Lemma count_attempted_execute l : count_calls is_execute (attempted l) = List.length l.
Proof.
  unfold count_calls. rewrite driver_calls_attempted.
  induction l as [|s l IH]; simpl; [reflexivity|]. rewrite IH. reflexivity.
Qed.

Lemma count_attempted_other p l :
  (forall s, p (CExecute s) = false) -> count_calls p (attempted l) = 0.
Proof.
  intros Hp. unfold count_calls. rewrite driver_calls_attempted.
  induction l as [|s l IH]; simpl; [reflexivity|]. rewrite Hp. exact IH.
Qed.

End BatchCounting.

(** C1, as the specification states it, would let the caller read the
    index of the failing statement off the value returned.  The script
    [A;B;C] fails at index 1 and the script [B;A;C] at index 0, on the same
    connection and with the same error text, and [execute_sql] returns the
    same value for both: no reading of the returned value gives the index. *)
Lemma C1_returned_value_has_no_index :
  let failing_at_1 :=
    value_of (CreateSchema.execute_sql Fixtures.rejects_B (u "A;B;C") (connected tt)) in
  let failing_at_0 :=
    value_of (CreateSchema.execute_sql Fixtures.rejects_B (u "B;A;C") (connected tt)) in
  failing_at_1 = Val false
  /\ failing_at_0 = Val false
  /\ ~ exists decode : res bool -> nat * str,
         decode failing_at_1 = (1, u "boom") /\ decode failing_at_0 = (0, u "boom").
Proof.
  vm_compute. split; [reflexivity|]. split; [reflexivity|].
  intros [decode [H1 H0]]. rewrite H1 in H0. discriminate.
Qed.

(** C1 (amended).  When the statements before [B] execute and [B] raises
    on an open connection, [execute_sql] attempts exactly the statements
    up to and including [B], in order, and none after it, issues exactly
    one rollback call and no commit, and prints the driver's error text in
    the error line; it returns [False], which carries neither the index
    nor the text (and lets the exception of a rollback that raises
    propagate). *)
Theorem C1_first_failure_stops_and_rolls_back
  {St : Type} (D : Driver St) (sql : str) (pre post : list str)
  (B msg : str) (st st1 st2 : St) :
  statements sql = pre ++ B :: post ->
  all_succeed D pre st = Some st1 ->
  d_execute D B st1 = (st2, Raises msg) ->
  let run := CreateSchema.execute_sql D sql (connected st) in
  let rollback := raised_of (snd (d_rollback D st2)) in
  driver_calls (trace_of run)
  = executed pre ++ [(CExecute B, Some msg); (CRollback, rollback)]
  /\ count_calls is_execute (trace_of run) = List.length pre + 1
  /\ count_calls is_rollback (trace_of run) = 1
  /\ count_calls is_commit (trace_of run) = 0
  /\ In (Stdout (error_line (u "Failed to execute SQL: " ++ msg))) (trace_of run)
  /\ value_of run = match rollback with
                    | None => Val false
                    | Some text => Exc (Exception text)
                    end.
Proof.
  intros Hsql Hok HB run rollback. subst run rollback.
  rewrite (execute_sql_failure D sql pre B post msg st st1 st2 Hsql Hok HB).
  unfold trace_of, value_of. cbn [fst snd].
  repeat split.
  - rewrite driver_calls_app, driver_calls_attempted. reflexivity.
  - rewrite count_calls_app, count_attempted_execute. reflexivity.
  - rewrite count_calls_app, count_attempted_other by reflexivity. reflexivity.
  - rewrite count_calls_app, count_attempted_other by reflexivity. reflexivity.
  - apply in_or_app. right. simpl. auto.
  - destruct (snd (d_rollback D st2)) as [[]|text]; reflexivity.
Qed.

(** The script [A;B;C] on a connection that rejects [B]. *)
Lemma C1_witness :
  let run := CreateSchema.execute_sql Fixtures.rejects_B (u "A;B;C") (connected tt) in
  driver_calls (trace_of run)
  = [(CExecute (u "A"), None); (CExecute (u "B"), Some (u "boom")); (CRollback, None)]
  /\ value_of run = Val false.
Proof.
  pose proof (C1_first_failure_stops_and_rolls_back Fixtures.rejects_B
                (u "A;B;C") [u "A"] [u "C"] (u "B") (u "boom") tt tt tt
                eq_refl eq_refl eq_refl) as H.
  split; [exact (proj1 H)|exact (proj2 (proj2 (proj2 (proj2 (proj2 H)))))].
Defined.

(** C3, as the specification states it, fails when the commit itself
    raises: both statements of [A;B] execute, and [execute_sql] then
    issues a rollback and returns [False]. *)
Lemma C3_commit_may_raise :
  let run := CreateSchema.execute_sql Fixtures.commit_fails (u "A;B") (connected tt) in
  all_succeed Fixtures.commit_fails (statements (u "A;B")) tt = Some tt
  /\ value_of run = Val false
  /\ count_calls is_commit (trace_of run) = 1
  /\ count_calls is_rollback (trace_of run) = 1.
Proof. vm_compute. repeat split. Qed.

(** C3 (amended).  When every statement of a script executes on an open
    connection and the commit returns, [execute_sql] issues exactly one
    commit call and no rollback call and returns [True]; a script that is
    empty after splitting and trimming, such as one of white space and
    semicolons only, executes no statement and only commits, and a
    trailing semicolon adds no statement.  When the commit raises instead,
    the one commit call is followed by one rollback call and [False] is
    returned. *)
Theorem C3_all_valid_commits_once :
  (forall {St : Type} (D : Driver St) (sql : str) (st st1 st2 : St),
      all_succeed D (statements sql) st = Some st1 ->
      d_commit D st1 = (st2, Returns tt) ->
      let run := CreateSchema.execute_sql D sql (connected st) in
      value_of run = Val true
      /\ driver_calls (trace_of run) = executed (statements sql) ++ [(CCommit, None)]
      /\ count_calls is_execute (trace_of run) = List.length (statements sql)
      /\ count_calls is_commit (trace_of run) = 1
      /\ count_calls is_rollback (trace_of run) = 0)
  /\ (forall {St : Type} (D : Driver St) (sql : str) (st st2 : St),
         statements sql = [] ->
         d_commit D st = (st2, Returns tt) ->
         let run := CreateSchema.execute_sql D sql (connected st) in
         value_of run = Val true
         /\ driver_calls (trace_of run) = [(CCommit, None)])
  /\ (forall sql : str,
         (forall c, In c sql -> c = semicolon \/ isspace c = true) ->
         statements sql = [])
  /\ (forall sql : str, statements (sql ++ [semicolon]) = statements sql)
  /\ (forall {St : Type} (D : Driver St) (sql msg : str) (st st1 st2 : St),
         all_succeed D (statements sql) st = Some st1 ->
         d_commit D st1 = (st2, Raises msg) ->
         let run := CreateSchema.execute_sql D sql (connected st) in
         let rollback := raised_of (snd (d_rollback D st2)) in
         driver_calls (trace_of run)
         = executed (statements sql) ++ [(CCommit, Some msg); (CRollback, rollback)]
         /\ value_of run = match rollback with
                           | None => Val false
                           | Some text => Exc (Exception text)
                           end).
Proof.
  assert (Hmain : forall {St : Type} (D : Driver St) (sql : str) (st st1 st2 : St),
      all_succeed D (statements sql) st = Some st1 ->
      d_commit D st1 = (st2, Returns tt) ->
      let run := CreateSchema.execute_sql D sql (connected st) in
      value_of run = Val true
      /\ driver_calls (trace_of run) = executed (statements sql) ++ [(CCommit, None)]
      /\ count_calls is_execute (trace_of run) = List.length (statements sql)
      /\ count_calls is_commit (trace_of run) = 1
      /\ count_calls is_rollback (trace_of run) = 0).
  { intros St D sql st st1 st2 Hok Hc run. subst run.
    rewrite (execute_sql_all_executed D sql st st1 Hok), Hc.
    unfold trace_of, value_of. cbn [fst snd].
    repeat split.
    - rewrite driver_calls_app, driver_calls_attempted. reflexivity.
    - rewrite count_calls_app, count_attempted_execute. apply Nat.add_0_r.
    - rewrite count_calls_app, count_attempted_other by reflexivity. reflexivity.
    - rewrite count_calls_app, count_attempted_other by reflexivity. reflexivity. }
  split; [exact Hmain|]. split; [|split; [|split]].
  - intros St D sql st st2 Hnil Hc run.
    assert (Hok : all_succeed D (statements sql) st = Some st)
      by (rewrite Hnil; reflexivity).
    destruct (Hmain St D sql st st st2 Hok Hc) as [Hv [Hcalls _]].
    split; [exact Hv|]. subst run. rewrite Hcalls, Hnil. reflexivity.
  - exact statements_blank.
  - exact statements_trailing_semicolon.
  - intros St D sql msg st st1 st2 Hok Hc run rollback. subst run rollback.
    rewrite (execute_sql_all_executed D sql st st1 Hok), Hc.
    unfold trace_of, value_of. cbn [fst snd]. split.
    + rewrite driver_calls_app, driver_calls_attempted. reflexivity.
    + destruct (snd (d_rollback D st2)) as [[]|text]; reflexivity.
Qed.

(** A two-statement script with a trailing semicolon on a healthy
    connection. *)
Lemma C3_witness :
  let run := CreateSchema.execute_sql Fixtures.healthy (u "A; B;") (connected tt) in
  value_of run = Val true
  /\ driver_calls (trace_of run)
     = [(CExecute (u "A"), None); (CExecute (u "B"), None); (CCommit, None)].
Proof.
  pose proof (proj1 C3_all_valid_commits_once unit Fixtures.healthy (u "A; B;")
                tt tt tt eq_refl eq_refl) as H.
  split; [exact (proj1 H)|exact (proj1 (proj2 H))].
Defined.

(** ** Dictionaries *)
Section DictFacts.

Lemma str_eqb_eq a b : str_eqb a b = true <-> a = b.
Proof. unfold str_eqb. destruct (list_eq_dec N.eq_dec a b); split; congruence. Qed.

Lemma str_eqb_refl a : str_eqb a a = true.
Proof. apply str_eqb_eq. reflexivity. Qed.

Lemma str_eqb_neq a b : a <> b -> str_eqb a b = false.
Proof.
  intros H. destruct (str_eqb a b) eqn:E; [|reflexivity].
  apply str_eqb_eq in E. contradiction.
Qed.

Lemma getitem_setitem_same {V} (d : dict V) k v :
  getitem (setitem d k v) k = Some v.
Proof.
  induction d as [|[k' v'] d IH]; simpl.
  - rewrite str_eqb_refl. reflexivity.
  - destruct (str_eqb k' k) eqn:E; simpl; rewrite E; [reflexivity|exact IH].
Qed.

Lemma getitem_setitem_other {V} (d : dict V) k v k' :
  k <> k' -> getitem (setitem d k v) k' = getitem d k'.
Proof.
  intros Hne. induction d as [|[k0 v0] d IH]; simpl.
  - rewrite (str_eqb_neq _ _ Hne). reflexivity.
  - destruct (str_eqb k0 k) eqn:E; simpl.
    + apply str_eqb_eq in E. subst k0.
      rewrite (str_eqb_neq _ _ Hne). reflexivity.
    + destruct (str_eqb k0 k'); [reflexivity|exact IH].
Qed.

End DictFacts.

(** ** The table renderer *)
Section RenderFacts.
Context {St : Type}.

(** The comprehension gives every header its own length. *)
Lemma initial_widths_spec headers : forall (d : dict nat) h,
  In h headers \/ getitem d h = Some (len h) ->
  getitem (fold_left (fun d h => setitem d h (len h)) headers d) h = Some (len h).
Proof.
  induction headers as [|a hs IH]; intros d h H; simpl.
  - destruct H as [[]|H]. exact H.
  - apply IH. destruct (list_eq_dec N.eq_dec a h) as [->|Hne].
    + right. apply getitem_setitem_same.
    + destruct H as [[H|H]|H]; [contradiction|left; exact H|].
      right. rewrite getitem_setitem_other by exact Hne. exact H.
Qed.

(** One row: every column is widened to the length of its cell. *)
Lemma widen_row_spec (r : row) (T : str -> nat) (all : list str) :
  forall (hs : list str) (cw : dict nat) (w : world St),
    incl hs all ->
    (forall h, In h all ->
       getitem cw h = Some (T h)
       \/ getitem cw h = Some (Nat.max (T h) (len (ReadDatabase.cell r h)))) ->
    exists cw',
      ReadDatabase.widen_row r hs cw w = (Val cw', w, [])
      /\ (forall h, In h all ->
            getitem cw' h = Some (T h)
            \/ getitem cw' h = Some (Nat.max (T h) (len (ReadDatabase.cell r h))))
      /\ (forall h, In h all ->
            In h hs
            \/ getitem cw h = Some (Nat.max (T h) (len (ReadDatabase.cell r h))) ->
            getitem cw' h = Some (Nat.max (T h) (len (ReadDatabase.cell r h)))).
Proof.
  induction hs as [|a hs IH]; intros cw w Hincl Hinv.
  - exists cw. split; [reflexivity|]. split; [exact Hinv|].
    intros h _ [[]|H]. exact H.
  - assert (Ha : In a all) by (apply Hincl; left; reflexivity).
    assert (Hhs : incl hs all) by (intros x Hx; apply Hincl; right; exact Hx).
    assert (Hnew : exists v, getitem cw a = Some v
              /\ Nat.max v (len (ReadDatabase.cell r a))
                 = Nat.max (T a) (len (ReadDatabase.cell r a))).
    { destruct (Hinv a Ha) as [H|H]; rewrite H; eexists; (split; [reflexivity|]); lia. }
    destruct Hnew as [v [Hv Hmax]].
    set (cw1 := setitem cw a (Nat.max v (len (ReadDatabase.cell r a)))).
    assert (Hinv1 : forall h, In h all ->
              getitem cw1 h = Some (T h)
              \/ getitem cw1 h = Some (Nat.max (T h) (len (ReadDatabase.cell r h)))).
    { intros h Hh. subst cw1. destruct (list_eq_dec N.eq_dec a h) as [<-|Hne].
      - right. rewrite getitem_setitem_same, Hmax. reflexivity.
      - rewrite getitem_setitem_other by exact Hne. apply Hinv, Hh. }
    destruct (IH cw1 w Hhs Hinv1) as [cw' [Hrun [Hinv' Hdone]]].
    exists cw'. split; [|split].
    + simpl. unfold ReadDatabase.getitem_M. rewrite Hv.
      rewrite (bind_pure _ eq_refl). exact Hrun.
    + exact Hinv'.
    + intros h Hh H. apply Hdone; [exact Hh|].
      destruct (list_eq_dec N.eq_dec a h) as [<-|Hne].
      * right. subst cw1. rewrite getitem_setitem_same, Hmax. reflexivity.
      * destruct H as [[H|H]|H]; [contradiction|left; exact H|].
        right. subst cw1. rewrite getitem_setitem_other by exact Hne. exact H.
Qed.

Lemma widen_spec (all : list str) : forall (rs : list row) (T : str -> nat)
    (cw : dict nat) (w : world St),
    (forall h, In h all -> getitem cw h = Some (T h)) ->
    exists cw',
      ReadDatabase.widen rs all cw w = (Val cw', w, [])
      /\ forall h, In h all -> getitem cw' h = Some (widened rs T h).
Proof.
  induction rs as [|r rs IH]; intros T cw w Hinv.
  - exists cw. split; [reflexivity|exact Hinv].
  - destruct (widen_row_spec r T all all cw w (incl_refl all)
                (fun h Hh => or_introl (Hinv h Hh))) as [cw1 [Hrun [_ Hdone]]].
    destruct (IH (fun h => Nat.max (T h) (len (ReadDatabase.cell r h))) cw1 w)
      as [cw' [Hrun' Hfinal]].
    { intros h Hh. apply Hdone; [exact Hh|left; exact Hh]. }
    exists cw'. split.
    + simpl. rewrite (bind_pure _ Hrun). exact Hrun'.
    + exact Hfinal.
Qed.


Lemma fold_max_list_max rs (f : row -> nat) : forall b,
  fold_left (fun w r => Nat.max w (f r)) rs b = list_max (b :: map f rs).
Proof.
  induction rs as [|r rs IH]; intros b; simpl; [lia|].
  rewrite IH. simpl. lia.
Qed.

Lemma widened_column_width results h :
  widened results len h = column_width results h.
Proof. unfold widened, column_width. apply fold_max_list_max. Qed.

Lemma justified_spec (text : str -> str) (W : str -> nat) (cw : dict nat)
      (w : world St) (all : list str) :
  (forall h, In h all -> getitem cw h = Some (W h)) ->
  forall hs, incl hs all ->
  map_M (fun h => bind (ReadDatabase.getitem_M cw h)
                       (fun x => ret (ljust (text h) x))) hs w
  = (Val (map (fun h => ljust (text h) (W h)) hs), w, []).
Proof.
  intros Hinv. induction hs as [|a hs IH]; intros Hincl; [reflexivity|].
  simpl.
  assert (Hone : bind (ReadDatabase.getitem_M (St := St) cw a)
                      (fun x => ret (ljust (text a) x)) w
                 = (Val (ljust (text a) (W a)), w, [])).
  { unfold ReadDatabase.getitem_M. rewrite (Hinv a (Hincl a (or_introl eq_refl))).
    reflexivity. }
  rewrite (bind_pure _ Hone).
  rewrite (bind_pure _ (IH (fun x Hx => Hincl x (or_intror Hx)))).
  reflexivity.
Qed.

Lemma print_rows (line : row -> str) (body : row -> M St unit) (w : world St) :
  forall rs,
    (forall r, In r rs -> body r w = (Val tt, w, [Stdout (line r)])) ->
    for_each rs body w = (Val tt, w, map (fun r => Stdout (line r)) rs).
Proof.
  induction rs as [|r rs IH]; intros H; [reflexivity|].
  simpl. rewrite (bind_val _ (H r (or_introl eq_refl))).
  rewrite (IH (fun x Hx => H x (or_intror Hx))). reflexivity.
Qed.

(** The run of [print_results] on a non-empty result set, in a format
    other than [json]. *)
Lemma print_results_table (E : Env) (first : row) (rest : list row)
      (format_type : str) (w : world St) :
  str_eqb format_type (u "json") = false ->
  ReadDatabase.print_results E (first :: rest) format_type w
  = (Val tt, w, table (first :: rest) (keys first)).
Proof.
  intros Hfmt. unfold ReadDatabase.print_results. rewrite Hfmt.
  set (results := first :: rest). set (headers := keys first).
  destruct (widen_spec headers results len (ReadDatabase.initial_widths headers) w)
    as [cw [Hrun Hcw]].
  { intros h Hh. unfold ReadDatabase.initial_widths.
    apply initial_widths_spec. left. exact Hh. }
  assert (HW : forall h, In h headers -> getitem cw h = Some (column_width results h)).
  { intros h Hh. rewrite (Hcw h Hh), widened_column_width. reflexivity. }
  rewrite (bind_pure _ Hrun).
  assert (Hj : forall text,
             ReadDatabase.justified (St := St) text headers cw w
             = (Val (join ReadDatabase.bar
                       (map (fun h => ljust (text h) (column_width results h)) headers)),
                w, [])).
  { intros text. unfold ReadDatabase.justified.
    rewrite (bind_pure _ (justified_spec text _ cw w headers HW headers (incl_refl _))).
    reflexivity. }
  rewrite (bind_pure _ (Hj (fun h => h))).
  fold (header_line results headers).
  assert (Hrows : for_each results
              (fun r => bind (ReadDatabase.justified (ReadDatabase.cell r) headers cw)
                             (fun row_line => print row_line)) w
            = (Val tt, w, map (fun r => Stdout (row_line results headers r)) results)).
  { apply print_rows. intros r _.
    rewrite (bind_pure _ (Hj (ReadDatabase.cell r))). reflexivity. }
  rewrite (bind_val (m := print _) _ (a := tt) (w1 := w) eq_refl).
  rewrite (bind_val (m := print _) _ (a := tt) (w1 := w) eq_refl).
  rewrite (bind_val _ Hrows).
  reflexivity.
Qed.

End RenderFacts.

Section WidthFacts.

Lemma list_max_In l : l <> [] -> In (list_max l) l.
Proof.
  induction l as [|a l IH]; intros H; [congruence|].
  destruct l as [|b l]; [left; simpl; lia|].
  assert (Hin : In (list_max (b :: l)) (b :: l)) by (apply IH; discriminate).
  change (list_max (a :: b :: l)) with (Nat.max a (list_max (b :: l))).
  destruct (Nat.max_spec a (list_max (b :: l))) as [[_ ->]|[_ ->]];
    [right; exact Hin|left; reflexivity].
Qed.

(** The display width is the maximum of the header length and the
    cell lengths of the column. *)
Lemma column_width_is_max results h :
  len h <= column_width results h
  /\ (forall r, In r results -> len (ReadDatabase.cell r h) <= column_width results h)
  /\ (column_width results h = len h
      \/ exists r, In r results /\ column_width results h = len (ReadDatabase.cell r h)).
Proof.
  unfold column_width.
  set (l := len h :: map (fun r => len (ReadDatabase.cell r h)) results).
  assert (Hle : forall x, In x l -> x <= list_max l).
  { pose proof (proj1 (list_max_le l (list_max l)) (Nat.le_refl _)) as H.
    rewrite Forall_forall in H. exact H. }
  split; [apply Hle; left; reflexivity|]. split.
  - intros r Hr. apply Hle. right.
    apply in_map_iff. exists r. split; [reflexivity|exact Hr].
  - destruct (list_max_In l) as [H|H]; [discriminate|left; symmetry; exact H|].
    right. apply in_map_iff in H as [r [Hr Hin]]. exists r. split; [exact Hin|].
    symmetry. exact Hr.
Qed.

Lemma ljust_left_justified text n :
  len text <= n -> left_justified (ljust text n) text n.
Proof.
  intros H. unfold left_justified, ljust, len in *. split.
  - rewrite length_app, repeat_length. lia.
  - exists (n - List.length text). reflexivity.
Qed.

End WidthFacts.

(** C4, as the specification states it, fails for the [json] format: the
    empty result set prints the warning and no JSON array, even with a
    serialiser that renders the empty list as [[]]. *)
Lemma C4_json_empty_prints_no_array :
  let E := Fixtures.env Fixtures.no_vars in
  let run := ReadDatabase.print_results E [] (u "json") (fresh tt) in
  json_dumps E [] = u "[]"
  /\ trace_of run <> [Stdout (u "[]")]
  /\ ~ In (Stdout (json_dumps E [])) (trace_of run).
Proof.
  vm_compute. split; [reflexivity|]. split.
  - intros H. discriminate H.
  - intros [H|[]]. discriminate H.
Qed.

(** C4 (amended).  For the empty result set [print_results] prints, in
    the [table] format and in the [json] format alike, nothing but the
    warning-level notice that no results were returned: no table body and
    no JSON array. *)
Theorem C4_empty_result_set_warns
  {St : Type} (E : Env) (format_type : str) (w : world St) :
  ReadDatabase.print_results E [] format_type w
  = (Val tt, w, [Stdout (warn_line (u "No results returned"))]).
Proof.
  unfold ReadDatabase.print_results, log_warn, print.
  reflexivity.
Qed.

(** C5.  For a non-empty result set the [table] format prints the header
    line, a rule of dashes as long as the header line, one line per row
    and the count line; the columns are those of the first row, joined
    with [ | ]; the width of a column is the maximum of the length of its
    header and of the lengths of its cells, and header and cells are
    left-justified to exactly that width.  The two rows of the
    specification's example print as stated there. *)
Theorem C5_table_layout :
  (forall {St : Type} (E : Env) (first : row) (rest : list row) (w : world St),
      let results := first :: rest in
      let headers := keys first in
      ReadDatabase.print_results E results (u "table") w
      = (Val tt, w,
         [Stdout (newline ++ header_line results headers);
          Stdout (times 45%N (len (header_line results headers)))]
         ++ map (fun r => Stdout (row_line results headers r)) results
         ++ [Stdout (newline ++ str_of_nat (List.length results)
                     ++ u " row(s) returned" ++ newline)])
      /\ header_line results headers
         = join (u " | ") (map (fun h => ljust h (column_width results h)) headers)
      /\ (forall r, row_line results headers r
                    = join (u " | ")
                        (map (fun h => ljust (ReadDatabase.cell r h)
                                             (column_width results h)) headers))
      /\ len (times 45%N (len (header_line results headers)))
         = len (header_line results headers)
      /\ (forall h,
             column_width results h
             = list_max (len h :: map (fun r => len (ReadDatabase.cell r h)) results)
             /\ len h <= column_width results h
             /\ (forall r, In r results ->
                           len (ReadDatabase.cell r h) <= column_width results h)
             /\ (column_width results h = len h
                 \/ exists r, In r results
                              /\ column_width results h = len (ReadDatabase.cell r h)))
      /\ (forall h, left_justified (ljust h (column_width results h)) h
                                   (column_width results h))
      /\ (forall h r, In r results ->
                      left_justified (ljust (ReadDatabase.cell r h) (column_width results h))
                                     (ReadDatabase.cell r h) (column_width results h)))
  /\ (forall {St : Type} (E : Env) (w : world St),
         ReadDatabase.print_results E Fixtures.ann_bob (u "table") w
         = (Val tt, w,
            [Stdout (newline ++ u "id | name");
             Stdout (u "---------");
             Stdout (u "1  | ann ");
             Stdout (u "2  | bob ");
             Stdout (newline ++ u "2 row(s) returned" ++ newline)])).
Proof.
  split.
  - intros St E first rest w results headers.
    split; [exact (print_results_table E first rest (u "table") w eq_refl)|].
    split; [reflexivity|]. split; [reflexivity|].
    split; [apply repeat_length|].
    split; [|split].
    + intros h. split; [reflexivity|]. apply column_width_is_max.
    + intros h. apply ljust_left_justified, column_width_is_max.
    + intros h r Hr. apply ljust_left_justified.
      apply (proj1 (proj2 (column_width_is_max results h))). exact Hr.
  - intros St E w. unfold Fixtures.ann_bob.
    rewrite (print_results_table E _ _ (u "table") w eq_refl).
    vm_compute. reflexivity.
Qed.

(** The cell [ann] of the example is padded to the four code points of
    its column. *)
Lemma C5_witness :
  left_justified (u "ann ") (u "ann") 4.
Proof.
  exact (proj2 (proj2 (proj2 (proj2 (proj2 (proj2
           (proj1 C5_table_layout unit (Fixtures.env Fixtures.no_vars)
              (hd [] Fixtures.ann_bob) (tl Fixtures.ann_bob) (fresh tt)))))))
           (u "name") (hd [] Fixtures.ann_bob) (or_introl eq_refl)).
Defined.

(** ** The readers *)
Section ReaderFacts.
Context {St : Type} (D : Driver St) (E : Env).

(** The run of [execute_query] on an open connection, case by case. *)
Lemma execute_query_connected (t : db_type) (query : str) (st : St) :
  ReadDatabase.execute_query D E t query (connected st)
  = match d_execute D query st with
    | (st1, Raises text) =>
        (Val [], connected st1,
         [Call (CExecute query) (Some text);
          Stdout (error_line (u "Query execution failed: " ++ text))])
    | (st1, Returns _) =>
        if ReadDatabase.is_select E query then
          match d_fetchall D st1 with
          | (st2, Returns results) =>
              (Val (ReadDatabase.rows_of t results), connected st2,
               [Call (CExecute query) None; Call CFetchall None])
          | (st2, Raises text) =>
              (Val [], connected st2,
               [Call (CExecute query) None; Call CFetchall (Some text);
                Stdout (error_line (u "Query execution failed: " ++ text))])
          end
        else
          match d_commit D st1 with
          | (st2, Returns _) =>
              (Val [], connected st2, [Call (CExecute query) None; Call CCommit None])
          | (st2, Raises text) =>
              (Val [], connected st2,
               [Call (CExecute query) None; Call CCommit (Some text);
                Stdout (error_line (u "Query execution failed: " ++ text))])
          end
    end.
Proof.
  unfold ReadDatabase.execute_query, try_except, bind, on_cursor, on_connection,
    driver_call, log_error, print, connected.
  cbn [self_cursor self_connection drv].
  destruct (d_execute D query st) as [st1 [[]|text]]; cbn [result_of raised_of].
  - destruct (ReadDatabase.is_select E query).
    + cbn [self_cursor self_connection drv].
      destruct (d_fetchall D st1) as [st2 [results|text]]; cbn [result_of raised_of].
      * reflexivity.
      * reflexivity.
    + cbn [self_cursor self_connection drv].
      destruct (d_commit D st1) as [st2 [[]|text]]; reflexivity.
  - reflexivity.
Qed.

End ReaderFacts.

(** C7.  When the cursor raises while executing the query, [execute_query]
    of either reader lets no exception out and returns the empty list
    (after printing the error line); a query that executes, is fetched and
    has zero rows returns the same value. *)
Theorem C7_failed_query_returns_empty_list
  {St : Type} (D : Driver St) (E : Env) (t : db_type) (query msg : str) (st st1 : St) :
  d_execute D query st = (st1, Raises msg) ->
  let failed := ReadDatabase.execute_query D E t query (connected st) in
  value_of failed = Val []
  /\ trace_of failed
     = [Call (CExecute query) (Some msg);
        Stdout (error_line (u "Query execution failed: " ++ msg))]
  /\ forall (D' : Driver St) (st' st1' st2' : St),
       d_execute D' query st' = (st1', Returns tt) ->
       ReadDatabase.is_select E query = true ->
       d_fetchall D' st1' = (st2', Returns []) ->
       value_of (ReadDatabase.execute_query D' E t query (connected st'))
       = value_of failed.
Proof.
  intros Hraise failed. subst failed.
  rewrite (execute_query_connected D E t query st), Hraise.
  split; [reflexivity|]. split; [reflexivity|].
  intros D' st' st1' st2' Hexec Hsel Hfetch.
  rewrite (execute_query_connected D' E t query st'), Hexec, Hsel, Hfetch.
  destruct t; reflexivity.
Qed.

(** A query on a missing table, against the same query returning no row. *)
Lemma C7_witness :
  let E := Fixtures.env Fixtures.no_vars in
  let query := u "SELECT * FROM missing" in
  value_of (ReadDatabase.execute_query Fixtures.rejects_all E postgres query (connected tt))
  = Val []
  /\ value_of (ReadDatabase.execute_query Fixtures.healthy E postgres query (connected tt))
     = value_of (ReadDatabase.execute_query Fixtures.rejects_all E postgres query
                   (connected tt)).
Proof.
  pose proof (C7_failed_query_returns_empty_list Fixtures.rejects_all
                (Fixtures.env Fixtures.no_vars) postgres
                (u "SELECT * FROM missing") (u "syntax error") tt tt eq_refl) as H.
  split; [exact (proj1 H)|].
  exact (proj2 (proj2 H) Fixtures.healthy tt tt tt eq_refl eq_refl eq_refl).
Defined.

(** C10, as stated, fails when the statement raises: a statement that
    does not start with [SELECT] and is rejected by the cursor is not
    committed. *)
Lemma C10_rejected_statement_is_not_committed :
  let E := Fixtures.env Fixtures.no_vars in
  let query := u "DROP TABLE missing" in
  let run := ReadDatabase.execute_query Fixtures.rejects_all E mysql query (connected tt) in
  ReadDatabase.is_select E query = false
  /\ count_calls is_commit (trace_of run) = 0
  /\ driver_calls (trace_of run) = [(CExecute query, Some (u "syntax error"))].
Proof. vm_compute. repeat split. Qed.

(** C10 (amended).  [execute_query] takes a statement for a query exactly
    when its trimmed text, in upper case, starts with [SELECT].  When the
    cursor executes the statement without raising: a query is fetched and
    not committed; any other statement is committed once, is not fetched
    and reports the empty list.  Statements that start with a comment or
    with [WITH] are of the second kind. *)
Theorem C10_select_prefix_decides
  {St : Type} (D : Driver St) (E : Env) (t : db_type) (query : str) (st st1 : St) :
  d_execute D query st = (st1, Returns tt) ->
  let run := ReadDatabase.execute_query D E t query (connected st) in
  ReadDatabase.is_select E query
  = startswith (upper (unicode_upper E) (strip query)) (u "SELECT")
  /\ (ReadDatabase.is_select E query = true ->
      driver_calls (trace_of run)
      = [(CExecute query, None); (CFetchall, raised_of (snd (d_fetchall D st1)))]
      /\ count_calls is_commit (trace_of run) = 0
      /\ forall st2 results, d_fetchall D st1 = (st2, Returns results) ->
                             value_of run = Val (ReadDatabase.rows_of t results))
  /\ (ReadDatabase.is_select E query = false ->
      driver_calls (trace_of run)
      = [(CExecute query, None); (CCommit, raised_of (snd (d_commit D st1)))]
      /\ count_calls is_commit (trace_of run) = 1
      /\ value_of run = Val [])
  /\ ReadDatabase.is_select E (u "WITH x AS (SELECT 1) SELECT * FROM x") = false
  /\ ReadDatabase.is_select E (u "-- rows" ++ newline ++ u "SELECT 1") = false
  /\ ReadDatabase.is_select E (u "  select 1;") = true.
Proof.
  intros Hexec run. subst run.
  rewrite (execute_query_connected D E t query st), Hexec.
  split; [reflexivity|].
  split; [|split; [|repeat split; vm_compute; reflexivity]].
  - intros Hsel. rewrite Hsel.
    destruct (d_fetchall D st1) as [st2 [results|text]]; cbn [snd raised_of].
    + repeat split. intros st2' results' H. injection H as _ <-. reflexivity.
    + repeat split. intros st2' results' H. discriminate H.
  - intros Hsel. rewrite Hsel.
    destruct (d_commit D st1) as [st2 [[]|text]]; repeat split.
Qed.

(** A statement starting with [WITH] on a healthy connection. *)
Lemma C10_witness :
  let E := Fixtures.env Fixtures.no_vars in
  let query := u "WITH x AS (SELECT 1) SELECT * FROM x" in
  let run := ReadDatabase.execute_query Fixtures.healthy E postgres query (connected tt) in
  driver_calls (trace_of run) = [(CExecute query, None); (CCommit, None)]
  /\ value_of run = Val [].
Proof.
  pose proof (C10_select_prefix_decides Fixtures.healthy (Fixtures.env Fixtures.no_vars)
                postgres (u "WITH x AS (SELECT 1) SELECT * FROM x") tt tt eq_refl) as H.
  destruct (proj1 (proj2 (proj2 H)) eq_refl) as [Hc [_ Hv]].
  split; [exact Hc|exact Hv].
Defined.

(** ** Configuration layering *)
Section ConfigFacts.

(** A flag that is absent or not empty: the three layers apply as the
    specification says. *)
Lemma config_layering getenv t a f :
  flag_of a f <> Some [] ->
  field_of (build_config getenv t a) f = spec_layered getenv t a f.
Proof.
  intros H. unfold spec_layered, build_config, DEFAULT_CONFIG, getenv_or.
  destruct f; simpl in *;
    match goal with
    | |- context [override ?o _] => destruct o as [[|c s]|]
    end; simpl; try (exfalso; apply H; reflexivity); try reflexivity;
    destruct t; reflexivity.
Qed.

(** A flag given with the empty string leaves the lower layers in place. *)
Lemma config_empty_flag getenv t a f :
  flag_of a f = Some [] ->
  field_of (build_config getenv t a) f = field_of (DEFAULT_CONFIG getenv t) f.
Proof.
  intros H. destruct f; simpl in *; rewrite H; reflexivity.
Qed.

(** The defaults are not touched by the construction. *)
Lemma config_no_flags getenv t :
  build_config getenv t Fixtures.no_flags = DEFAULT_CONFIG getenv t.
Proof. reflexivity. Qed.

End ConfigFacts.

(** C8.  The code at [--password ''] with [DB_PASSWORD=secret] in the
    environment: the flag is given, and the password of the connection is
    the one of the environment, not the one of the flag. *)
Theorem C8_empty_flag_does_not_override :
  flag_of Fixtures.empty_password_flag FPassword = Some []
  /\ db_password (build_config Fixtures.password_in_env postgres
                    Fixtures.empty_password_flag) = u "secret"
  /\ spec_layered Fixtures.password_in_env postgres
       Fixtures.empty_password_flag FPassword = []
  /\ db_host (build_config Fixtures.password_in_env postgres Fixtures.host_flag)
     = u "db.internal".
Proof. vm_compute. repeat split. Qed.

(** ** Release of the connection *)
Section QuietFacts.
Context {St : Type}.

Lemma lifecycle_app t1 t2 : lifecycle (t1 ++ t2) = lifecycle t1 ++ lifecycle t2.
Proof. unfold lifecycle. rewrite driver_calls_app, filter_app. reflexivity. Qed.

Lemma quiet_ret {A} (a : A) : quiet (ret (St := St) a).
Proof. intros w. repeat split. Qed.

Lemma quiet_raise {A} e : quiet (raise (St := St) (A := A) e).
Proof. intros w. repeat split. Qed.

Lemma quiet_print text : quiet (print (St := St) text).
Proof. intros w. repeat split. Qed.

Lemma quiet_print_help : quiet (print_help (St := St)).
Proof. intros w. repeat split. Qed.

Lemma quiet_bind {A B} (m : M St A) (f : A -> M St B) :
  quiet m -> (forall a, quiet (f a)) -> quiet (bind m f).
Proof.
  intros Hm Hf w. specialize (Hm w). unfold bind.
  destruct (m w) as [[[a|e] w1] t1]; unfold world_of, trace_of in *; simpl in *.
  - specialize (Hf a w1). destruct (f a w1) as [[r w2] t2].
    unfold world_of, trace_of in *. simpl in *.
    destruct Hm as [H1 [H2 H3]], Hf as [H4 [H5 H6]].
    rewrite lifecycle_app, H3, H6. repeat split; congruence.
  - exact Hm.
Qed.

Lemma quiet_try_except {A} (m : M St A) (h : str -> M St A) :
  quiet m -> (forall e, quiet (h e)) -> quiet (try_except m h).
Proof.
  intros Hm Hh w. specialize (Hm w). unfold try_except.
  destruct (m w) as [[[a|[text|code]] w1] t1]; unfold world_of, trace_of in *;
    simpl in *; try exact Hm.
  specialize (Hh text w1). destruct (h text w1) as [[r w2] t2].
  unfold world_of, trace_of in *. simpl in *.
  destruct Hm as [H1 [H2 H3]], Hh as [H4 [H5 H6]].
  rewrite lifecycle_app, H3, H6. repeat split; congruence.
Qed.

Lemma quiet_driver_call {A} c (op : St -> St * outcome A) :
  is_lifecycle c = false -> quiet (driver_call c op).
Proof.
  intros Hc w. unfold driver_call. destruct (op (drv w)) as [st o].
  unfold world_of, trace_of, lifecycle. simpl. rewrite Hc. repeat split.
Qed.

Lemma quiet_on_cursor {A} attr (m : M St A) : quiet m -> quiet (on_cursor attr m).
Proof.
  intros Hm w. unfold on_cursor. destruct (self_cursor w) eqn:E.
  - rewrite <- E. apply Hm.
  - repeat split. exact E.
Qed.

Lemma quiet_on_connection {A} attr (m : M St A) :
  quiet m -> quiet (on_connection attr m).
Proof.
  intros Hm w. unfold on_connection. destruct (self_connection w) eqn:E.
  - rewrite <- E. apply Hm.
  - repeat split. exact E.
Qed.

Lemma quiet_for_each {A} (l : list A) (body : A -> M St unit) :
  (forall x, quiet (body x)) -> quiet (for_each l body).
Proof.
  intros Hb. induction l as [|x l IH]; simpl.
  - apply quiet_ret.
  - apply quiet_bind; [apply Hb|intros _; exact IH].
Qed.

Lemma quiet_map_M {A B} (f : A -> M St B) (l : list A) :
  (forall x, quiet (f x)) -> quiet (map_M f l).
Proof.
  intros Hf. induction l as [|x l IH]; simpl.
  - apply quiet_ret.
  - apply quiet_bind; [apply Hf|intros y].
    apply quiet_bind; [exact IH|intros ys; apply quiet_ret].
Qed.

Lemma quiet_getitem_M {V} (d : dict V) k : quiet (ReadDatabase.getitem_M (St := St) d k).
Proof.
  unfold ReadDatabase.getitem_M. destruct (getitem d k);
    [apply quiet_ret|apply quiet_raise].
Qed.

Lemma quiet_read_schema E path : quiet (CreateSchema.read_schema (St := St) E path).
Proof. intros w. repeat split. Qed.

End QuietFacts.

(** Decomposes a computation into the pieces known to be quiet. *)
Ltac quiet_step :=
  first
    [ apply quiet_ret | apply quiet_raise | apply quiet_print | apply quiet_print_help
    | apply quiet_getitem_M | apply quiet_read_schema
    | apply quiet_driver_call; reflexivity
    | apply quiet_on_cursor | apply quiet_on_connection
    | apply quiet_bind; [|intros ?]
    | apply quiet_try_except; [|intros ?]
    | apply quiet_for_each; intros ?
    | apply quiet_map_M; intros ?
    | match goal with
      | |- quiet (if ?b then _ else _) => destruct b
      | |- quiet (match ?x with _ => _ end) => destruct x
      end ].

Ltac quiet_solve := repeat quiet_step.

Section QuietPrograms.
Context {St : Type} (D : Driver St) (E : Env).

Lemma quiet_execute_sql sql : quiet (CreateSchema.execute_sql D sql).
Proof.
  unfold CreateSchema.execute_sql, CreateSchema.execute_statements,
    log_success, log_error.
  quiet_solve.
  unfold CreateSchema.execute_one, log_info. quiet_solve.
Qed.

Lemma quiet_execute_query t query : quiet (ReadDatabase.execute_query D E t query).
Proof. unfold ReadDatabase.execute_query, log_error. quiet_solve. Qed.

Lemma quiet_list_tables t : quiet (ReadDatabase.list_tables D E t).
Proof.
  unfold ReadDatabase.list_tables.
  destruct t; (apply quiet_bind; [apply quiet_execute_query|intros results]);
    quiet_solve.
Qed.

Lemma quiet_describe_table t name : quiet (ReadDatabase.describe_table D E t name).
Proof. unfold ReadDatabase.describe_table. destruct t; apply quiet_execute_query. Qed.

Lemma quiet_widen_row r hs : forall cw, quiet (ReadDatabase.widen_row (St := St) r hs cw).
Proof.
  induction hs as [|h hs IH]; intros cw; simpl; [apply quiet_ret|].
  apply quiet_bind; [apply quiet_getitem_M|intros w; apply IH].
Qed.

Lemma quiet_widen rs hs : forall cw, quiet (ReadDatabase.widen (St := St) rs hs cw).
Proof.
  induction rs as [|r rs IH]; intros cw; simpl; [apply quiet_ret|].
  apply quiet_bind; [apply quiet_widen_row|intros cw'; apply IH].
Qed.

Lemma quiet_print_results results format_type :
  quiet (ReadDatabase.print_results (St := St) E results format_type).
Proof.
  unfold ReadDatabase.print_results, ReadDatabase.justified, log_warn.
  destruct results as [|first rest]; [apply quiet_print|].
  destruct (str_eqb format_type (u "json")); [apply quiet_print|].
  apply quiet_bind; [apply quiet_widen|intros cw].
  quiet_solve.
Qed.

End QuietPrograms.

Section Bracket.
Context {St : Type} (D : Driver St) (E : Env).

Lemma reader_connect_same t c : ReadDatabase.connect D t c = CreateSchema.connect D t c.
Proof. reflexivity. Qed.

Lemma reader_close_same : ReadDatabase.close D = CreateSchema.close D.
Proof. reflexivity. Qed.

(** [close] does nothing on an object that never connected. *)
Lemma close_unset st : CreateSchema.close D (fresh st) = (Val tt, fresh st, []).
Proof. reflexivity. Qed.

Lemma try_finally_trace {A} (m : M St A) (fin : M St unit) w :
  trace_of (try_finally m fin w)
  = trace_of (m w) ++ trace_of (fin (world_of (m w))).
Proof.
  unfold try_finally. destruct (m w) as [[r w1] t1].
  unfold world_of, trace_of. simpl.
  destruct (fin w1) as [[[[]|e] w2] t2]; reflexivity.
Qed.

(** The lifecycle calls of [close], by the attributes that are set. *)
Lemma close_lifecycle w :
  lifecycle (trace_of (CreateSchema.close D w))
  = match self_cursor w, self_connection w with
    | Some _, Some _ =>
        match d_cursor_close D (drv w) with
        | (st1, Returns _) =>
            [(CCursorClose, None);
             (CConnClose, raised_of (snd (d_conn_close D st1)))]
        | (_, Raises msg) => [(CCursorClose, Some msg)]
        end
    | Some _, None => [(CCursorClose, raised_of (snd (d_cursor_close D (drv w))))]
    | None, Some _ => [(CConnClose, raised_of (snd (d_conn_close D (drv w))))]
    | None, None => []
    end.
Proof.
  unfold CreateSchema.close, bind, if_cursor, if_connection, driver_call, log_info,
    print, ret.
  destruct w as [st [c|] [k|]]; cbn [self_cursor self_connection drv].
  - destruct (d_cursor_close D st) as [st1 [[]|msg]]; cbn [result_of raised_of].
    + cbn [self_cursor self_connection drv].
      destruct (d_conn_close D st1) as [st2 [[]|msg]]; reflexivity.
    + reflexivity.
  - destruct (d_conn_close D st) as [st1 [[]|msg]]; reflexivity.
  - destruct (d_cursor_close D st) as [st1 [[]|msg]]; reflexivity.
  - reflexivity.
Qed.

(** What [connect] leaves behind on a fresh object. *)
Lemma connect_fresh t c st :
  let run := CreateSchema.connect D t c (fresh st) in
  (exists msg,
      lifecycle (trace_of run) = [(CConnect t c, Some msg)]
      /\ value_of run = Exc (SystemExit 1)
      /\ self_connection (world_of run) = None
      /\ self_cursor (world_of run) = None)
  \/ (exists msg,
         lifecycle (trace_of run) = [(CConnect t c, None); (CCursor, Some msg)]
         /\ value_of run = Exc (SystemExit 1)
         /\ self_connection (world_of run) = Some Handle
         /\ self_cursor (world_of run) = None)
  \/ (lifecycle (trace_of run) = [(CConnect t c, None); (CCursor, None)]
      /\ value_of run = Val tt
      /\ self_connection (world_of run) = Some Handle
      /\ self_cursor (world_of run) = Some Handle).
Proof.
  unfold CreateSchema.connect, try_except, bind, on_connection, driver_call,
    set_connection, set_cursor, log_info, log_error, print, sys_exit, raise, fresh.
  cbn [self_cursor self_connection drv].
  destruct (d_connect D t c st) as [st1 [[]|msg]]; cbn [result_of raised_of].
  - cbn [self_cursor self_connection drv].
    destruct (d_cursor D st1) as [st2 [[]|msg]]; cbn [result_of raised_of].
    + right. right. repeat split.
    + right. left. exists msg. repeat split.
  - left. exists msg. repeat split.
Qed.

(** The bracket of both [main] functions: connect, a quiet body, and
    [close] in the [finally] clause. *)
Lemma bracket_shape (t : db_type) (c : config) (rest : M St unit) (st : St) :
  quiet rest ->
  run_shape t c
    (lifecycle (trace_of (try_finally (bind (CreateSchema.connect D t c) (fun _ => rest))
                                      (CreateSchema.close D) (fresh st)))).
Proof.
  intros Hq. rewrite try_finally_trace, lifecycle_app, close_lifecycle.
  pose proof (connect_fresh t c st) as Hc. cbv zeta in Hc. unfold bind.
  destruct (CreateSchema.connect D t c (fresh st)) as [[r w1] t1].
  unfold value_of, world_of, trace_of in *. cbn [fst snd] in *.
  destruct Hc as [[msg [Hl [Hv [Hcn Hcu]]]]|[[msg [Hl [Hv [Hcn Hcu]]]]|[Hl [Hv [Hcn Hcu]]]]];
    subst r; cbn [fst snd].
  - rewrite Hl, Hcn, Hcu. apply connect_raised.
  - rewrite Hl, Hcn, Hcu. apply cursor_raised.
  - specialize (Hq w1). destruct (rest w1) as [[r2 w2] t2].
    unfold world_of, trace_of in Hq. cbn [fst snd] in *.
    destruct Hq as [Hq1 [Hq2 Hq3]].
    rewrite lifecycle_app, Hl, Hq3, Hq1, Hq2, Hcn, Hcu.
    destruct (d_cursor_close D (drv w2)) as [st3 [[]|msg]].
    + apply both_closed.
    + apply cursor_close_raised.
Qed.

Lemma run_shape_in_order t c l : run_shape t c l -> closes_in_order false l = true.
Proof. intros H. destruct H; reflexivity. Qed.

Lemma quiet_generate_example t : quiet (CreateSchema.generate_example (St := St) E t).
Proof. unfold CreateSchema.generate_example. quiet_solve. Qed.

Lemma quiet_lifecycle {A} (m : M St A) w : quiet m -> lifecycle (trace_of (m w)) = [].
Proof. intros H. apply H. Qed.

Lemma creator_init_fresh t st :
  CreateSchema.init (St := St) E t (fresh st)
  = if CreateSchema.available E t then (Val tt, fresh st, [])
    else (Exc (SystemExit 1), fresh st,
          [Stdout (error_line (CreateSchema.not_installed t))]).
Proof.
  unfold CreateSchema.init. destruct (CreateSchema.available E t); reflexivity.
Qed.

Lemma reader_init_fresh t st :
  ReadDatabase.init (St := St) E t (fresh st)
  = if CreateSchema.available E t then (Val tt, fresh st, [])
    else (Exc (SystemExit 1), fresh st,
          [Stdout (error_line (CreateSchema.not_installed t))]).
Proof.
  unfold ReadDatabase.init. destruct (CreateSchema.available E t); reflexivity.
Qed.

(** The lifecycle calls of a run of [create_schema.py]. *)
Lemma create_schema_main_shape (args : CreateSchema.Args) (st : St) :
  run_shape (CreateSchema.arg_type args)
    (build_config (getenv E) (CreateSchema.arg_type args)
       (CreateSchema.arg_overrides args))
    (lifecycle (trace_of (CreateSchema.main D E args (fresh st)))).
Proof.
  unfold CreateSchema.main.
  destruct (CreateSchema.arg_generate_example args).
  - rewrite (quiet_lifecycle _ _ (quiet_generate_example _)). apply never_connected.
  - pose proof (creator_init_fresh (CreateSchema.arg_type args) st) as Hinit.
    destruct (CreateSchema.available E (CreateSchema.arg_type args)).
    + rewrite (bind_pure _ Hinit).
      apply bracket_shape.
      unfold log_info, log_warn, log_error.
      repeat first [ apply quiet_execute_sql | quiet_step ].
    + rewrite (bind_exc _ Hinit). apply never_connected.
Qed.

(** The lifecycle calls of a run of [read_database.py]. *)
Lemma read_database_main_shape (args : ReadDatabase.Args) (st : St) :
  run_shape (ReadDatabase.arg_type args)
    (build_config (getenv E) (ReadDatabase.arg_type args)
       (ReadDatabase.arg_overrides args))
    (lifecycle (trace_of (ReadDatabase.main D E args (fresh st)))).
Proof.
  unfold ReadDatabase.main.
  pose proof (reader_init_fresh (ReadDatabase.arg_type args) st) as Hinit.
  destruct (CreateSchema.available E (ReadDatabase.arg_type args)).
  - rewrite (bind_pure _ Hinit).
    unfold ReadDatabase.main_body.
    rewrite reader_connect_same, reader_close_same.
    apply bracket_shape.
    unfold log_info, log_warn, log_error.
    repeat first [ apply quiet_list_tables | apply quiet_describe_table
                 | apply quiet_execute_query | apply quiet_print_results
                 | quiet_step ].
  - rewrite (bind_exc _ Hinit). apply never_connected.
Qed.

End Bracket.

(** C9, as the specification states it, fails when closing the cursor
    raises: [close] stops there, and the connection that was opened is
    never closed. *)
Lemma C9_connection_left_open :
  let run := CreateSchema.main Fixtures.cursor_close_fails
               (Fixtures.env Fixtures.no_vars) Fixtures.example_users (fresh tt) in
  lifecycle (trace_of run)
  = [(CConnect postgres (builtin_default postgres), None); (CCursor, None);
     (CCursorClose, Some (u "Unread result found"))]
  /\ count_calls is_conn_close (trace_of run) = 0
  /\ value_of run = Exc (Exception (u "Unread result found")).
Proof. vm_compute. repeat split. Qed.

(** C9 (amended).  On every exit path of a run of either script, also
    when the run ends by an exception or by [sys.exit], the lifecycle
    calls are of one of five forms: nothing was opened; the connect call
    raised and nothing is closed; the cursor could not be created and the
    connection is closed; cursor and connection are closed, in this order;
    or closing the cursor raised, and then the connection is not closed.
    The connection is never closed before its cursor, and [close] does
    nothing on an object whose cursor and connection are unset. *)
Theorem C9_release_on_every_exit_path :
  (forall {St : Type} (D : Driver St) (E : Env) (args : CreateSchema.Args) (st : St),
      let calls := lifecycle (trace_of (CreateSchema.main D E args (fresh st))) in
      run_shape (CreateSchema.arg_type args)
        (build_config (getenv E) (CreateSchema.arg_type args)
           (CreateSchema.arg_overrides args)) calls
      /\ closes_in_order false calls = true)
  /\ (forall {St : Type} (D : Driver St) (E : Env) (args : ReadDatabase.Args) (st : St),
         let calls := lifecycle (trace_of (ReadDatabase.main D E args (fresh st))) in
         run_shape (ReadDatabase.arg_type args)
           (build_config (getenv E) (ReadDatabase.arg_type args)
              (ReadDatabase.arg_overrides args)) calls
         /\ closes_in_order false calls = true)
  /\ (forall {St : Type} (D : Driver St) (st : St),
         CreateSchema.close D (fresh st) = (Val tt, fresh st, [])
         /\ ReadDatabase.close D (fresh st) = (Val tt, fresh st, [])).
Proof.
  split; [|split].
  - intros St D E args st calls.
    pose proof (create_schema_main_shape D E args st) as H.
    split; [exact H|exact (run_shape_in_order _ _ _ H)].
  - intros St D E args st calls.
    pose proof (read_database_main_shape D E args st) as H.
    split; [exact H|exact (run_shape_in_order _ _ _ H)].
  - intros St D st. split; reflexivity.
Qed.
(* ================================================================== *)
(** * Part III: further properties of the scripts                      *)
(* ================================================================== *)

(** ** Splitting and rejoining *)
Section SplitCompose.

Lemma split_on_concat sep a b :
  split_on sep (a ++ sep :: b) = split_on sep a ++ split_on sep b.
Proof.
  induction a as [|c a IH]; simpl.
  - rewrite N.eqb_refl. reflexivity.
  - rewrite IH. destruct (c =? sep)%N; [reflexivity|].
    pose proof (split_on_not_nil sep a) as Hnn.
    destruct (split_on sep a) as [|g gs]; [congruence|reflexivity].
Qed.

End SplitCompose.

(** X1.  The statement list of two scripts put together with a [;]
    between them is the statement list of the first followed by that of
    the second: every [;] of the text ends a statement, wherever it
    stands. *)
Theorem X1_statements_of_concatenation (a b : str) :
  statements (a ++ semicolon :: b) = statements a ++ statements b.
Proof.
  unfold statements.
  rewrite split_on_concat, filter_app, map_app. reflexivity.
Qed.

(** X2.  A list of statements that are non-empty, trimmed and free of
    [;] is recovered exactly from its text joined with [;]. *)
Theorem X2_rejoin_then_split (l : list str) :
  Forall clean l -> statements (rejoin l) = l.
Proof.
  apply statements_rejoin.
Qed.

(** Two statements, the second with inner white space. *)
Lemma X2_witness :
  statements (rejoin [u "DROP TABLE t"; u "CREATE TABLE t (x int)"])
  = [u "DROP TABLE t"; u "CREATE TABLE t (x int)"].
Proof.
  apply X2_rejoin_then_split.
  repeat constructor; try discriminate;
    intros H; vm_compute in H; intuition discriminate.
Defined.

(** ** The batch executor on any connection *)
Section BatchTotal.
Context {St : Type} (D : Driver St).

(** Either every statement executes, or there is a first one that raises. *)
Lemma all_succeed_or_first_failure (l : list str) : forall st,
  (exists st1, all_succeed D l st = Some st1)
  \/ (exists pre B post msg st1 st2,
         l = pre ++ B :: post
         /\ all_succeed D pre st = Some st1
         /\ d_execute D B st1 = (st2, Raises msg)).
Proof.
  induction l as [|s l IH]; intros st.
  - left. exists st. reflexivity.
  - destruct (d_execute D s st) as [st' [[]|msg]] eqn:He.
    + destruct (IH st') as [[st1 H]|[pre [B [post [m [st1 [st2 [Hl [Hok HB]]]]]]]]].
      * left. exists st1. simpl. rewrite He. exact H.
      * right. exists (s :: pre), B, post, m, st1, st2.
        split; [simpl; rewrite Hl; reflexivity|].
        split; [simpl; rewrite He; exact Hok|exact HB].
    + right. exists [], s, l, msg, st, st'.
      split; [reflexivity|]. split; [reflexivity|exact He].
Qed.



End BatchTotal.

(** X3.  On an open connection [execute_sql] returns [True] exactly when
    every statement of the script executed and the commit returned. *)
Theorem X3_true_iff_committed
  {St : Type} (D : Driver St) (sql : str) (st : St) :
  value_of (CreateSchema.execute_sql D sql (connected st)) = Val true
  <-> exists st1 st2,
        all_succeed D (statements sql) st = Some st1
        /\ d_commit D st1 = (st2, Returns tt).
Proof.
  split.
  - intros Hv.
    destruct (all_succeed_or_first_failure D (statements sql) st)
      as [[st1 Hok]|[pre [B [post [m [st1 [st2 [Hl [Hok HB]]]]]]]]].
    + exists st1. rewrite (execute_sql_all_executed D sql st st1 Hok) in Hv.
      destruct (d_commit D st1) as [st2 [[]|text]].
      * exists st2. split; [exact Hok|reflexivity].
      * unfold value_of in Hv. cbn [fst] in Hv.
        destruct (snd (d_rollback D st2)); discriminate Hv.
    + rewrite (execute_sql_failure D sql pre B post m st st1 st2 Hl Hok HB) in Hv.
      unfold value_of in Hv. cbn [fst] in Hv.
      destruct (snd (d_rollback D st2)); discriminate Hv.
  - intros [st1 [st2 [Hok Hc]]].
    rewrite (execute_sql_all_executed D sql st st1 Hok), Hc. reflexivity.
Qed.


(** X5.  On an object whose [connect] never succeeded, [execute_sql] makes
    no call to the driver and does not return: the [AttributeError] of the
    missing cursor (or, for a script without statements, of the missing
    connection) is caught, and the rollback in the handler raises the
    [AttributeError] that leaves the method. *)
Theorem X5_execute_sql_without_connection
  {St : Type} (D : Driver St) (sql : str) (st : St) :
  let run := CreateSchema.execute_sql D sql (fresh st) in
  value_of run = Exc (attribute_error (u "rollback"))
  /\ world_of run = fresh st
  /\ driver_calls (trace_of run) = [].
Proof.
  intros run. subst run.
  assert (Hrun : exists t,
             CreateSchema.execute_sql D sql (fresh st)
             = (Exc (attribute_error (u "rollback")), fresh st, t)
             /\ driver_calls t = []).
  { unfold CreateSchema.execute_sql, CreateSchema.execute_statements.
    pose proof (statements_truthy sql) as Ht.
    destruct (statements sql) as [|s l].
    - eexists. split; reflexivity.
    - inversion Ht as [|? ? Hs _]; subst.
      assert (Hone : CreateSchema.execute_one D s (fresh st)
                     = (Exc (attribute_error (u "execute")), fresh st,
                        [Stdout (executing_line s)])).
      { unfold CreateSchema.execute_one. rewrite Hs. reflexivity. }
      unfold try_except. simpl for_each.
      rewrite (bind_exc _ (bind_exc _ Hone)).
      eexists. split; reflexivity. }
  destruct Hrun as [t [Hrun Hcalls]]. rewrite Hrun.
  split; [reflexivity|]. split; [reflexivity|exact Hcalls].
Qed.

(** ** The readers beyond [execute_query] *)
Section ReaderMore.
Context {St : Type} (D : Driver St) (E : Env).

Lemma upper_app uc a b : upper uc (a ++ b) = upper uc a ++ upper uc b.
Proof. unfold upper. apply flat_map_app. Qed.

Lemma startswith_app p x : startswith (p ++ x) p = true.
Proof.
  induction p as [|a p IH]; simpl; [destruct x; reflexivity|].
  rewrite N.eqb_refl. exact IH.
Qed.

Lemma lstrip_app_blank ws y :
  forallb isspace ws = true -> head_ok y = true -> lstrip (ws ++ y) = y.
Proof.
  intros Hws Hy. induction ws as [|c ws IH]; simpl.
  - apply lstrip_head_ok, Hy.
  - simpl in Hws. apply andb_prop in Hws as [Hc Hws]. rewrite Hc. exact (IH Hws).
Qed.

Lemma lstrip_app x y :
  lstrip (x ++ y) = if forallb isspace x then lstrip y else lstrip x ++ y.
Proof.
  induction x as [|c x IH]; simpl; [reflexivity|].
  destruct (isspace c); simpl; [exact IH|reflexivity].
Qed.

(** Trimming on the right leaves a prefix that ends in a visible
    character alone. *)
Lemma rstrip_app_keep a b :
  head_ok (rev a) = true -> rstrip (a ++ b) = a ++ rstrip b.
Proof.
  intros Ha. unfold rstrip. rewrite rev_app_distr, lstrip_app.
  destruct (forallb isspace (rev b)) eqn:Hb.
  - rewrite (lstrip_head_ok _ Ha), (lstrip_blank _ Hb), rev_involutive.
    simpl. rewrite app_nil_r. reflexivity.
  - rewrite rev_app_distr, rev_involutive. reflexivity.
Qed.

(** A text that starts, after white space, with [SELECT] is a query. *)
Lemma is_select_after_blank ws rest :
  forallb isspace ws = true ->
  ReadDatabase.is_select E (ws ++ u "SELECT" ++ rest) = true.
Proof.
  intros Hws. unfold ReadDatabase.is_select, strip.
  rewrite (lstrip_app_blank ws (u "SELECT" ++ rest) Hws eq_refl).
  rewrite (rstrip_app_keep (u "SELECT") rest eq_refl).
  rewrite upper_app.
  change (upper (unicode_upper E) (u "SELECT")) with (u "SELECT").
  apply startswith_app.
Qed.

(** A text whose first character is visible and is not [s] or [S]
    (nor has an upper case beyond ASCII) is no query. *)
Lemma strip_keeps_head c s :
  isspace c = false -> exists r, strip (c :: s) = c :: r.
Proof.
  intros Hc. unfold strip. simpl lstrip. rewrite Hc.
  destruct (rstrip_decompose (c :: s)) as [ws [Eq Hws]].
  destruct (rstrip (c :: s)) as [|c' r].
  - simpl in Eq. subst ws. simpl in Hws. rewrite Hc in Hws. discriminate.
  - injection Eq as <- _. exists r. reflexivity.
Qed.

Lemma is_select_describe_mysql name :
  ReadDatabase.is_select E (describe_query mysql name) = false.
Proof.
  assert (Hr : exists r, strip (describe_query mysql name) = 68%N :: r)
    by exact (strip_keeps_head 68%N (u "ESCRIBE " ++ name ++ u ";") eq_refl).
  destruct Hr as [r Hr].
  unfold ReadDatabase.is_select. rewrite Hr. reflexivity.
Qed.

Lemma is_select_describe_postgres name :
  ReadDatabase.is_select E (describe_query postgres name) = true.
Proof.
  change (describe_query postgres name)
    with (firstn 13 (describe_query postgres name)
          ++ u "SELECT" ++ skipn 19 (describe_query postgres name)).
  apply is_select_after_blank. reflexivity.
Qed.

(** A statement that is no query reports no rows and fetches nothing,
    whatever the connection does. *)
Lemma not_select_reports_nothing t query st :
  ReadDatabase.is_select E query = false ->
  exists st' tr,
    ReadDatabase.execute_query D E t query (connected st) = (Val [], connected st', tr)
    /\ count_calls is_fetchall tr = 0.
Proof.
  intros Hsel. rewrite (execute_query_connected D E t query st), Hsel.
  destruct (d_execute D query st) as [st1 [[]|text]].
  - destruct (d_commit D st1) as [st2 [[]|text]]; eexists; eexists; split; reflexivity.
  - eexists; eexists; split; reflexivity.
Qed.

Lemma map_M_getitem (k : str) (w : world St) : forall rows : list row,
  map_M (fun r => ReadDatabase.getitem_M r k) rows w
  = (match column k rows with
     | Some vs => Val vs
     | None => Exc (ReadDatabase.key_error k)
     end, w, []).
Proof.
  induction rows as [|r rows IH]; [reflexivity|].
  simpl. unfold ReadDatabase.getitem_M at 1.
  destruct (getitem r k) as [v|].
  - rewrite (bind_pure (a := v) _ eq_refl).
    destruct (column k rows) as [vs|].
    + rewrite (bind_pure _ IH). reflexivity.
    + rewrite (bind_exc _ IH). reflexivity.
  - reflexivity.
Qed.

End ReaderMore.

(** X6.  On a reader whose [connect] never succeeded, [execute_query],
    [list_tables] and [describe_table] of both vendors make no call to the
    driver and raise nothing: each returns the empty list. *)
Theorem X6_reader_without_connection
  {St : Type} (D : Driver St) (E : Env) (t : db_type) (text : str) (st : St) :
  let query := ReadDatabase.execute_query D E t text (fresh st) in
  let tables := ReadDatabase.list_tables D E t (fresh st) in
  let columns := ReadDatabase.describe_table D E t text (fresh st) in
  (value_of query = Val [] /\ driver_calls (trace_of query) = [])
  /\ (value_of tables = Val [] /\ driver_calls (trace_of tables) = [])
  /\ (value_of columns = Val [] /\ driver_calls (trace_of columns) = []).
Proof.
  destruct t; repeat split.
Qed.

(** X7.  The MySQL reader never lists a table and never describes one:
    [SHOW TABLES;] and [DESCRIBE name;] do not start with [SELECT], so on
    an open connection [list_tables] and [describe_table] fetch nothing and
    return the empty list, whatever the server answers and whatever the
    table name is. *)
Theorem X7_mysql_reader_reports_nothing
  {St : Type} (D : Driver St) (E : Env) (table_name : str) (st : St) :
  let tables := ReadDatabase.list_tables D E mysql (connected st) in
  let columns := ReadDatabase.describe_table D E mysql table_name (connected st) in
  value_of tables = Val []
  /\ count_calls is_fetchall (trace_of tables) = 0
  /\ value_of columns = Val []
  /\ count_calls is_fetchall (trace_of columns) = 0.
Proof.
  intros tables columns. subst tables columns.
  destruct (not_select_reports_nothing D E mysql (u "SHOW TABLES;") st eq_refl)
    as [st1 [t1 [H1 F1]]].
  destruct (not_select_reports_nothing D E mysql (describe_query mysql table_name) st
              (is_select_describe_mysql E table_name))
    as [st2 [t2 [H2 F2]]].
  unfold ReadDatabase.list_tables.
  rewrite (bind_val _ H1).
  change (ReadDatabase.describe_table D E mysql table_name)
    with (ReadDatabase.execute_query D E mysql (describe_query mysql table_name)).
  rewrite H2. unfold value_of, trace_of. cbn [fst snd ret].
  rewrite app_nil_r. repeat split; assumption.
Qed.

(** X8.  The PostgreSQL [describe_table] sends a text that holds the table
    name as given and that is a query whatever the name is: on an open
    connection it is never committed, and when the statement executes and
    the rows are fetched, the rows are returned as dictionaries. *)
Theorem X8_postgres_describe_is_a_query
  {St : Type} (D : Driver St) (E : Env) (table_name : str) (st : St) :
  let query := describe_query postgres table_name in
  let run := ReadDatabase.describe_table D E postgres table_name (connected st) in
  (exists before after, query = before ++ table_name ++ after)
  /\ ReadDatabase.is_select E query = true
  /\ count_calls is_commit (trace_of run) = 0
  /\ forall st1 st2 results,
       d_execute D query st = (st1, Returns tt) ->
       d_fetchall D st1 = (st2, Returns results) ->
       value_of run = Val (map (fun r => dict_of r) results)
       /\ driver_calls (trace_of run) = [(CExecute query, None); (CFetchall, None)].
Proof.
  intros query run. subst run.
  change (ReadDatabase.describe_table D E postgres table_name)
    with (ReadDatabase.execute_query D E postgres query).
  pose proof (is_select_describe_postgres E table_name) as Hsel. fold query in Hsel.
  rewrite (execute_query_connected D E postgres query st), Hsel.
  split; [|split; [reflexivity|split]].
  - exists (firstn 255 (describe_query postgres [])),
           (skipn 255 (describe_query postgres [])).
    unfold query, describe_query. cbn [join]. rewrite <- !app_assoc. reflexivity.
  - destruct (d_execute D query st) as [st1 [[]|text]]; [|reflexivity].
    destruct (d_fetchall D st1) as [st2 [results|text]]; reflexivity.
  - intros st1 st2 results He Hf. rewrite He, Hf. split; reflexivity.
Qed.

(** X9.  When the catalogue query executes and its rows are fetched, the
    PostgreSQL [list_tables] returns the [table_name] value of every row,
    in order; a row without that key makes it raise [KeyError], which is
    not caught. *)
Theorem X9_postgres_list_tables
  {St : Type} (D : Driver St) (E : Env) (st st1 st2 : St) (results : list row) :
  d_execute D ReadDatabase.postgres_list_query st = (st1, Returns tt) ->
  d_fetchall D st1 = (st2, Returns results) ->
  let run := ReadDatabase.list_tables D E postgres (connected st) in
  value_of run
  = match column (u "table_name") (map (fun r => dict_of r) results) with
    | Some names => Val names
    | None => Exc (ReadDatabase.key_error (u "table_name"))
    end
  /\ world_of run = connected st2
  /\ driver_calls (trace_of run)
     = [(CExecute ReadDatabase.postgres_list_query, None); (CFetchall, None)].
Proof.
  intros He Hf run. subst run.
  assert (Hsel : ReadDatabase.is_select E ReadDatabase.postgres_list_query = true).
  { change ReadDatabase.postgres_list_query
      with (firstn 13 ReadDatabase.postgres_list_query
            ++ u "SELECT" ++ skipn 19 ReadDatabase.postgres_list_query).
    apply is_select_after_blank. reflexivity. }
  pose proof (execute_query_connected D E postgres ReadDatabase.postgres_list_query st)
    as Hq.
  rewrite He, Hsel, Hf in Hq.
  unfold ReadDatabase.list_tables. rewrite (bind_val _ Hq), map_M_getitem.
  unfold value_of, world_of, trace_of. cbn [fst snd].
  split; [reflexivity|]. split; reflexivity.
Qed.

(** Two tables in the catalogue. *)
Lemma X9_witness :
  value_of (ReadDatabase.list_tables (MoreFixtures.serving MoreFixtures.two_tables)
              (Fixtures.env Fixtures.no_vars) postgres (connected tt))
  = Val [VStr (u "posts"); VStr (u "users")].
Proof.
  exact (proj1 (X9_postgres_list_tables (MoreFixtures.serving MoreFixtures.two_tables)
                  (Fixtures.env Fixtures.no_vars) tt tt tt MoreFixtures.two_tables
                  eq_refl eq_refl)).
Defined.

(** ** The table beyond its layout *)
Section TableMore.

Lemma len_join (sep : str) (l : list str) :
  len (join sep l) = list_sum (map len l) + len sep * (List.length l - 1).
Proof.
  unfold len. induction l as [|x l IH]; [simpl; lia|].
  destruct l as [|y l].
  - simpl. rewrite Nat.mul_0_r. lia.
  - change (join sep (x :: y :: l)) with (x ++ sep ++ join sep (y :: l)).
    rewrite !length_app, IH. simpl. lia.
Qed.

(** Cells padded to widths that are large enough have those widths. *)
Lemma justified_lengths (text : str -> str) (W : str -> nat) (headers : list str) :
  (forall h, In h headers -> len (text h) <= W h) ->
  map len (map (fun h => ljust (text h) (W h)) headers) = map W headers.
Proof.
  intros H. rewrite map_map. apply map_ext_in. intros h Hh.
  apply (proj1 (ljust_left_justified (text h) (W h) (H h Hh))).
Qed.

Lemma header_line_length results headers :
  len (header_line results headers)
  = list_sum (map (column_width results) headers) + 3 * (List.length headers - 1).
Proof.
  unfold header_line. rewrite len_join, justified_lengths, length_map.
  - reflexivity.
  - intros h _. apply column_width_is_max.
Qed.

Lemma row_line_length results headers r :
  In r results ->
  len (row_line results headers r)
  = list_sum (map (column_width results) headers) + 3 * (List.length headers - 1).
Proof.
  intros Hr. unfold row_line. rewrite len_join, justified_lengths, length_map.
  - reflexivity.
  - intros h _. apply (proj1 (proj2 (column_width_is_max results h))). exact Hr.
Qed.

Lemma column_width_same headers results results' h :
  Forall2 (same_cells headers) results results' ->
  In h headers ->
  column_width results h = column_width results' h.
Proof.
  intros Hall Hh. unfold column_width. f_equal. f_equal.
  induction Hall as [|r r' l l' Hr _ IH]; [reflexivity|].
  simpl. rewrite (Hr h Hh), IH. reflexivity.
Qed.

Lemma table_same headers results results' :
  Forall2 (same_cells headers) results results' ->
  table results headers = table results' headers.
Proof.
  intros Hall. unfold table.
  assert (Hhead : header_line results headers = header_line results' headers).
  { unfold header_line. f_equal. apply map_ext_in. intros h Hh.
    rewrite (column_width_same headers results results' h Hall Hh). reflexivity. }
  assert (Hrow : forall r r', same_cells headers r r' ->
             row_line results headers r = row_line results' headers r').
  { intros r r' Hr. unfold row_line. f_equal. apply map_ext_in. intros h Hh.
    rewrite (column_width_same headers results results' h Hall Hh), (Hr h Hh).
    reflexivity. }
  assert (Hcount : count_line results = count_line results').
  { unfold count_line. rewrite (Forall2_length Hall). reflexivity. }
  assert (Hrows : forall l l', Forall2 (same_cells headers) l l' ->
             map (fun r => Stdout (row_line results headers r)) l
             = map (fun r => Stdout (row_line results' headers r)) l').
  { intros l l' Hl. induction Hl as [|r r' l l' Hr _ IH]; [reflexivity|].
    simpl. rewrite (Hrow r r' Hr), IH. reflexivity. }
  rewrite Hhead, Hcount, (Hrows results results' Hall). reflexivity.
Qed.

End TableMore.

(** X10.  Every line of a printed table has the same length: the header
    line, the rule of dashes and each row line are as long as the sum of the
    column widths plus three for every separator between columns. *)
Theorem X10_table_lines_aligned
  {St : Type} (E : Env) (first : row) (rest : list row) (w : world St) :
  let results := first :: rest in
  let headers := keys first in
  let width := list_sum (map (column_width results) headers)
               + 3 * (List.length headers - 1) in
  exists header rule rows tail,
    trace_of (ReadDatabase.print_results E results (u "table") w)
    = [Stdout (newline ++ header); Stdout rule] ++ map Stdout rows ++ [Stdout tail]
    /\ List.length rows = List.length results
    /\ len header = width
    /\ len rule = width
    /\ Forall (fun line => len line = width) rows.
Proof.
  intros results headers width.
  change (ReadDatabase.print_results E results (u "table") w)
    with (ReadDatabase.print_results E (first :: rest) (u "table") w).
  rewrite (print_results_table E first rest (u "table") w eq_refl).
  fold results headers.
  exists (header_line results headers),
         (times 45%N (len (header_line results headers))),
         (map (row_line results headers) results),
         (count_line results).
  split; [unfold trace_of, table; cbn [snd]; rewrite map_map; reflexivity|].
  split; [apply length_map|].
  split; [apply header_line_length|].
  split; [unfold times, len at 1; rewrite repeat_length; apply header_line_length|].
  apply Forall_forall. intros line Hline.
  apply in_map_iff in Hline as [r [<- Hr]].
  apply row_line_length. exact Hr.
Qed.

(** X11.  The columns of a table are the keys of the first row, and the
    other rows are read through these keys only: two result sets with the
    same first row whose other rows agree on the cells under these keys
    print the same table.  A key that only a later row has is never
    shown. *)
Theorem X11_table_reads_first_row_keys
  {St : Type} (E : Env) (first : row) (rest rest' : list row) (w : world St) :
  Forall2 (same_cells (keys first)) rest rest' ->
  ReadDatabase.print_results E (first :: rest) (u "table") w
  = ReadDatabase.print_results E (first :: rest') (u "table") w.
Proof.
  intros Hall.
  rewrite !(print_results_table E first _ (u "table") w eq_refl).
  f_equal. apply table_same. constructor; [|exact Hall].
  intros h _. reflexivity.
Qed.

(** A second row with a [note] that the first row does not have. *)
Lemma X11_witness :
  ReadDatabase.print_results (Fixtures.env Fixtures.no_vars)
    ([(u "id", VInt 1)] :: MoreFixtures.with_extra_key) (u "table") (fresh tt)
  = ReadDatabase.print_results (Fixtures.env Fixtures.no_vars)
      ([(u "id", VInt 1)] :: MoreFixtures.without_extra_key) (u "table") (fresh tt).
Proof.
  apply X11_table_reads_first_row_keys.
  constructor; [|constructor].
  intros h [<-|[]]. reflexivity.
Defined.

(** ** Whole runs of the two scripts *)
Section MainRuns.
Context {St : Type} (D : Driver St) (E : Env).

Lemma connect_returns t c st st1 st2 :
  d_connect D t c st = (st1, Returns tt) ->
  d_cursor D st1 = (st2, Returns tt) ->
  CreateSchema.connect D t c (fresh st)
  = (Val tt, connected st2, connected_events t c).
Proof.
  intros Hc Hk.
  unfold CreateSchema.connect, try_except, bind, on_connection, driver_call,
    set_connection, set_cursor, log_info, print, fresh.
  cbn [self_cursor self_connection drv]. rewrite Hc.
  cbn [result_of raised_of self_cursor self_connection drv]. rewrite Hk.
  reflexivity.
Qed.

Lemma try_finally_run {A} (m : M St A) (fin : M St unit) w r w1 t1 :
  m w = (r, w1, t1) ->
  try_finally m fin w
  = (after_finally r (value_of (fin w1)), world_of (fin w1),
     t1 ++ trace_of (fin w1)).
Proof.
  intros H. unfold try_finally. rewrite H.
  destruct (fin w1) as [[[[]|e] w2] t2]; reflexivity.
Qed.

(** A run of [create_schema.py] that gets its connection. *)
Lemma creator_main_connected (args : CreateSchema.Args) st st1 st2 r w1 t1 :
  let t := CreateSchema.arg_type args in
  let c := build_config (getenv E) t (CreateSchema.arg_overrides args) in
  CreateSchema.arg_generate_example args = false ->
  CreateSchema.available E t = true ->
  d_connect D t c st = (st1, Returns tt) ->
  d_cursor D st1 = (st2, Returns tt) ->
  CreateSchema.main_body D E args c (fresh st) = (r, w1, connected_events t c ++ t1) ->
  CreateSchema.main D E args (fresh st)
  = (after_finally r (value_of (CreateSchema.close D w1)),
     world_of (CreateSchema.close D w1),
     connected_events t c ++ t1 ++ trace_of (CreateSchema.close D w1)).
Proof.
  intros t c Hgen Hav Hc Hk Hbody. unfold CreateSchema.main. rewrite Hgen.
  pose proof (creator_init_fresh E t st) as Hinit. rewrite Hav in Hinit.
  fold t. rewrite (bind_pure _ Hinit). fold c.
  rewrite (try_finally_run _ _ _ _ _ _ Hbody), <- app_assoc. reflexivity.
Qed.

(** A run of [read_database.py] that gets its connection. *)
Lemma reader_main_connected (args : ReadDatabase.Args) st st1 st2 r w1 t1 :
  let t := ReadDatabase.arg_type args in
  let c := build_config (getenv E) t (ReadDatabase.arg_overrides args) in
  CreateSchema.available E t = true ->
  d_connect D t c st = (st1, Returns tt) ->
  d_cursor D st1 = (st2, Returns tt) ->
  ReadDatabase.main_body D E args c (fresh st) = (r, w1, connected_events t c ++ t1) ->
  ReadDatabase.main D E args (fresh st)
  = (after_finally r (value_of (ReadDatabase.close D w1)),
     world_of (ReadDatabase.close D w1),
     connected_events t c ++ t1 ++ trace_of (ReadDatabase.close D w1)).
Proof.
  intros t c Hav Hc Hk Hbody. unfold ReadDatabase.main.
  pose proof (reader_init_fresh E t st) as Hinit. rewrite Hav in Hinit.
  fold t. rewrite (bind_pure _ Hinit). fold c.
  rewrite (try_finally_run _ _ _ _ _ _ Hbody), <- app_assoc. reflexivity.
Qed.

End MainRuns.

(** X13.  With [--generate-example], [create_schema.py] prints the example
    schemas of the chosen vendor and ends normally without a single call to
    the driver: it needs neither a database nor the driver package, and the
    other flags are not looked at. *)
Theorem X13_generate_example_needs_no_database
  {St : Type} (D : Driver St) (E : Env) (args : CreateSchema.Args) (w : world St) :
  CreateSchema.arg_generate_example args = true ->
  let run := CreateSchema.main D E args w in
  value_of run = Val tt
  /\ world_of run = w
  /\ driver_calls (trace_of run) = []
  /\ forall name schemas,
       In (name, schemas) CreateSchema.EXAMPLE_SCHEMAS ->
       In (Stdout (schemas (CreateSchema.arg_type args))) (trace_of run).
Proof.
  intros Hgen run. subst run. unfold CreateSchema.main. rewrite Hgen.
  split; [reflexivity|]. split; [reflexivity|]. split; [reflexivity|].
  intros name schemas Hin.
  unfold CreateSchema.EXAMPLE_SCHEMAS in Hin. simpl in Hin.
  destruct Hin as [H|[H|[H|[]]]]; injection H as _ <-;
    unfold trace_of, CreateSchema.generate_example, CreateSchema.EXAMPLE_SCHEMAS,
      bind, print, for_each, ret; cbn [snd fst app]; simpl; tauto.
Qed.

(** [--generate-example] on an interpreter without driver packages. *)
Lemma X13_witness :
  let run := CreateSchema.main Fixtures.healthy MoreFixtures.no_driver_env
               MoreFixtures.generate_only (fresh tt) in
  value_of run = Val tt /\ driver_calls (trace_of run) = [].
Proof.
  pose proof (X13_generate_example_needs_no_database Fixtures.healthy
                MoreFixtures.no_driver_env MoreFixtures.generate_only (fresh tt)
                eq_refl) as H.
  split; [exact (proj1 H)|exact (proj1 (proj2 (proj2 H)))].
Defined.

Section CloseCalls.
Context {St : Type} (D : Driver St).

(** [close] makes no call but the two close calls. *)
Lemma close_only_closes (p : call * option str -> bool) (w : world St) :
  (forall r, p (CCursorClose, r) = false) ->
  (forall r, p (CConnClose, r) = false) ->
  filter p (driver_calls (trace_of (CreateSchema.close D w))) = [].
Proof.
  intros H1 H2.
  unfold CreateSchema.close, bind, if_cursor, if_connection, driver_call, log_info,
    print, ret.
  destruct w as [st [c|] [k|]]; cbn [self_cursor self_connection drv].
  - destruct (d_cursor_close D st) as [st1 [[]|msg]]; cbn [result_of raised_of].
    + cbn [self_cursor self_connection drv].
      destruct (d_conn_close D st1) as [st2 [[]|msg]]; simpl; rewrite H1, H2; reflexivity.
    + simpl. rewrite H1. reflexivity.
  - destruct (d_conn_close D st) as [st1 [[]|msg]]; simpl; rewrite H2; reflexivity.
  - destruct (d_cursor_close D st) as [st1 [[]|msg]]; simpl; rewrite H1; reflexivity.
  - reflexivity.
Qed.

Lemma close_counts (p : call -> bool) (w : world St) :
  p CCursorClose = false -> p CConnClose = false ->
  count_calls p (trace_of (CreateSchema.close D w)) = 0.
Proof.
  intros H1 H2. unfold count_calls.
  rewrite (close_only_closes (fun cr => p (fst cr)) w); auto.
Qed.

End CloseCalls.

(** Projects the value, the world and the trace out of an explicit run. *)
Ltac run_simpl :=
  repeat match goal with
         | |- context [trace_of (?a, ?b, ?c)] => change (trace_of (a, b, c)) with c
         | |- context [value_of (?a, ?b, ?c)] => change (value_of (a, b, c)) with a
         | |- context [world_of (?a, ?b, ?c)] => change (world_of (a, b, c)) with b
         end.

(** X14.  When the driver package of the chosen vendor is not installed,
    either script prints how to install it and exits with status 1 before
    any call to the driver; nothing is opened and nothing is closed. *)
Theorem X14_driver_not_installed
  {St : Type} (D : Driver St) (E : Env) (st : St) :
  (forall args : CreateSchema.Args,
      CreateSchema.arg_generate_example args = false ->
      CreateSchema.available E (CreateSchema.arg_type args) = false ->
      CreateSchema.main D E args (fresh st)
      = (Exc (SystemExit 1), fresh st,
         [Stdout (error_line (CreateSchema.not_installed (CreateSchema.arg_type args)))]))
  /\ (forall args : ReadDatabase.Args,
         CreateSchema.available E (ReadDatabase.arg_type args) = false ->
         ReadDatabase.main D E args (fresh st)
         = (Exc (SystemExit 1), fresh st,
            [Stdout (error_line (CreateSchema.not_installed (ReadDatabase.arg_type args)))])).
Proof.
  split.
  - intros args Hgen Hav. unfold CreateSchema.main. rewrite Hgen.
    pose proof (creator_init_fresh E (CreateSchema.arg_type args) st) as Hinit.
    rewrite Hav in Hinit. apply (bind_exc _ Hinit).
  - intros args Hav. unfold ReadDatabase.main.
    pose proof (reader_init_fresh E (ReadDatabase.arg_type args) st) as Hinit.
    rewrite Hav in Hinit. apply (bind_exc _ Hinit).
Qed.

(** Both scripts on an interpreter without driver packages. *)
Lemma X14_witness :
  value_of (CreateSchema.main Fixtures.healthy MoreFixtures.no_driver_env
              Fixtures.example_users (fresh tt)) = Exc (SystemExit 1)
  /\ value_of (ReadDatabase.main Fixtures.healthy MoreFixtures.no_driver_env
                 MoreFixtures.drop_missing (fresh tt)) = Exc (SystemExit 1).
Proof.
  pose proof (X14_driver_not_installed Fixtures.healthy MoreFixtures.no_driver_env tt)
    as [Hc Hr].
  split.
  - rewrite (Hc Fixtures.example_users eq_refl eq_refl). reflexivity.
  - rewrite (Hr MoreFixtures.drop_missing eq_refl). reflexivity.
Defined.

(** X15.  When the file given with [--schema] does not exist,
    [create_schema.py] finds out only after it has connected: it prints
    the error, executes, commits and rolls back nothing, closes cursor and
    connection in the [finally] clause and exits with status 1. *)
Theorem X15_schema_file_not_found
  {St : Type} (D : Driver St) (E : Env) (args : CreateSchema.Args)
  (path : str) (st st1 st2 : St) :
  let t := CreateSchema.arg_type args in
  let c := build_config (getenv E) t (CreateSchema.arg_overrides args) in
  CreateSchema.arg_generate_example args = false ->
  CreateSchema.available E t = true ->
  CreateSchema.arg_schema args = Some path ->
  truthy path = true ->
  path_exists E path = false ->
  d_connect D t c st = (st1, Returns tt) ->
  d_cursor D st1 = (st2, Returns tt) ->
  let run := CreateSchema.main D E args (fresh st) in
  let closing := CreateSchema.close D (connected st2) in
  trace_of run
  = connected_events t c
    ++ [Stdout (error_line (u "Schema file not found: " ++ path))]
    ++ trace_of closing
  /\ value_of run = after_finally (Exc (SystemExit 1)) (value_of closing)
  /\ count_calls is_execute (trace_of run) = 0
  /\ count_calls is_commit (trace_of run) = 0
  /\ count_calls is_rollback (trace_of run) = 0.
Proof.
  intros t c Hgen Hav Hs Hp Hex Hc Hk run closing. subst run closing.
  assert (Hbody : CreateSchema.main_body D E args c (fresh st)
                  = (Exc (SystemExit 1), connected st2,
                     connected_events t c
                     ++ [Stdout (error_line (u "Schema file not found: " ++ path))])).
  { unfold CreateSchema.main_body. fold t.
    rewrite (bind_val _ (connect_returns D t c st st1 st2 Hc Hk)).
    rewrite Hs. cbn [opt_truthy]. rewrite Hp, Hex. reflexivity. }
  rewrite (creator_main_connected D E args st st1 st2 _ _ _ Hgen Hav Hc Hk Hbody).
  run_simpl.
  split; [reflexivity|]. split; [reflexivity|].
  rewrite !count_calls_app, !close_counts by reflexivity.
  split; [reflexivity|]. split; reflexivity.
Qed.

(** A schema file that is not there, on a healthy connection. *)
Lemma X15_witness :
  let run := CreateSchema.main Fixtures.healthy (Fixtures.env Fixtures.no_vars)
               MoreFixtures.schema_file (fresh tt) in
  value_of run = Exc (SystemExit 1)
  /\ count_calls is_execute (trace_of run) = 0.
Proof.
  pose proof (X15_schema_file_not_found Fixtures.healthy (Fixtures.env Fixtures.no_vars)
                MoreFixtures.schema_file (u "schema.sql") tt tt tt
                eq_refl eq_refl eq_refl eq_refl eq_refl eq_refl eq_refl) as H.
  split; [exact (proj1 (proj2 H))|exact (proj1 (proj2 (proj2 H)))].
Defined.

(** X16.  When none of the actions is asked for, either script still
    connects, prints an error and the help text, closes cursor and
    connection, and ends normally: no exit status other than 0 reports
    that nothing was done. *)
Theorem X16_no_action_ends_normally
  {St : Type} (D : Driver St) (E : Env) (st st1 st2 : St) :
  (forall args : CreateSchema.Args,
      let t := CreateSchema.arg_type args in
      let c := build_config (getenv E) t (CreateSchema.arg_overrides args) in
      CreateSchema.arg_generate_example args = false ->
      CreateSchema.available E t = true ->
      opt_truthy (CreateSchema.arg_schema args) = false ->
      opt_truthy (CreateSchema.arg_example args) = false ->
      d_connect D t c st = (st1, Returns tt) ->
      d_cursor D st1 = (st2, Returns tt) ->
      let run := CreateSchema.main D E args (fresh st) in
      let closing := CreateSchema.close D (connected st2) in
      trace_of run
      = connected_events t c
        ++ [Stdout (error_line (u "Please specify --schema or --example")); HelpText]
        ++ trace_of closing
      /\ value_of run = after_finally (Val tt) (value_of closing))
  /\ (forall args : ReadDatabase.Args,
         let t := ReadDatabase.arg_type args in
         let c := build_config (getenv E) t (ReadDatabase.arg_overrides args) in
         CreateSchema.available E t = true ->
         ReadDatabase.arg_list_tables args = false ->
         opt_truthy (ReadDatabase.arg_describe args) = false ->
         opt_truthy (ReadDatabase.arg_query args) = false ->
         d_connect D t c st = (st1, Returns tt) ->
         d_cursor D st1 = (st2, Returns tt) ->
         let run := ReadDatabase.main D E args (fresh st) in
         let closing := ReadDatabase.close D (connected st2) in
         trace_of run
         = connected_events t c
           ++ [Stdout (error_line
                         (u "Please specify --query, --list-tables, or --describe"));
               HelpText]
           ++ trace_of closing
         /\ value_of run = after_finally (Val tt) (value_of closing)).
Proof.
  split.
  - intros args t c Hgen Hav Hs Hx Hc Hk run closing. subst run closing.
    assert (Hbody : CreateSchema.main_body D E args c (fresh st)
                    = (Val tt, connected st2,
                       connected_events t c
                       ++ [Stdout (error_line (u "Please specify --schema or --example"));
                           HelpText])).
    { unfold CreateSchema.main_body. fold t.
      rewrite (bind_val _ (connect_returns D t c st st1 st2 Hc Hk)).
      rewrite Hs, Hx. reflexivity. }
    rewrite (creator_main_connected D E args st st1 st2 _ _ _ Hgen Hav Hc Hk Hbody).
    run_simpl. split; reflexivity.
  - intros args t c Hav Hl Hd Hq Hc Hk run closing. subst run closing.
    assert (Hbody : ReadDatabase.main_body D E args c (fresh st)
                    = (Val tt, connected st2,
                       connected_events t c
                       ++ [Stdout (error_line
                                     (u "Please specify --query, --list-tables, or --describe"));
                           HelpText])).
    { unfold ReadDatabase.main_body. fold t. rewrite reader_connect_same.
      rewrite (bind_val _ (connect_returns D t c st st1 st2 Hc Hk)).
      rewrite Hl, Hd, Hq. reflexivity. }
    rewrite (reader_main_connected D E args st st1 st2 _ _ _ Hav Hc Hk Hbody).
    run_simpl. split; reflexivity.
Qed.

(** [--type postgres] alone, on a healthy connection. *)
Lemma X16_witness :
  value_of (CreateSchema.main Fixtures.healthy (Fixtures.env Fixtures.no_vars)
              MoreFixtures.no_action (fresh tt)) = Val tt.
Proof.
  exact (proj2 (proj1 (X16_no_action_ends_normally Fixtures.healthy
                         (Fixtures.env Fixtures.no_vars) tt tt tt)
                  MoreFixtures.no_action eq_refl eq_refl eq_refl eq_refl eq_refl eq_refl)).
Defined.

(** X12.  When the statement given with [--query] raises,
    [read_database.py] prints the error line and still ends normally once
    cursor and connection are closed; and if the statement does not start
    with [SELECT], the error line is followed by the line that says that
    the query was executed successfully. *)
Theorem X12_failed_statement_reported_as_success
  {St : Type} (D : Driver St) (E : Env) (args : ReadDatabase.Args)
  (query msg : str) (st st1 st2 st3 : St) :
  let t := ReadDatabase.arg_type args in
  let c := build_config (getenv E) t (ReadDatabase.arg_overrides args) in
  CreateSchema.available E t = true ->
  ReadDatabase.arg_list_tables args = false ->
  opt_truthy (ReadDatabase.arg_describe args) = false ->
  ReadDatabase.arg_query args = Some query ->
  truthy query = true ->
  d_connect D t c st = (st1, Returns tt) ->
  d_cursor D st1 = (st2, Returns tt) ->
  d_execute D query st2 = (st3, Raises msg) ->
  let run := ReadDatabase.main D E args (fresh st) in
  let closing := ReadDatabase.close D (connected st3) in
  trace_of run
  = connected_events t c
    ++ ([Call (CExecute query) (Some msg);
         Stdout (error_line (u "Query execution failed: " ++ msg))]
        ++ (if ReadDatabase.is_select E query then []
            else [Stdout (info_line (u "Query executed successfully"))]))
    ++ trace_of closing
  /\ value_of run = after_finally (Val tt) (value_of closing).
Proof.
  intros t c Hav Hl Hd Hq Ht Hc Hk He run closing. subst run closing.
  assert (Hbody : ReadDatabase.main_body D E args c (fresh st)
                  = (Val tt, connected st3,
                     connected_events t c
                     ++ ([Call (CExecute query) (Some msg);
                          Stdout (error_line (u "Query execution failed: " ++ msg))]
                         ++ (if ReadDatabase.is_select E query then []
                             else [Stdout (info_line (u "Query executed successfully"))])))).
  { unfold ReadDatabase.main_body. fold t. rewrite reader_connect_same.
    rewrite (bind_val _ (connect_returns D t c st st1 st2 Hc Hk)).
    rewrite Hl, Hd, Hq. cbn [opt_truthy]. rewrite Ht.
    pose proof (execute_query_connected D E t query st2) as Hrun. rewrite He in Hrun.
    run_simpl. rewrite (bind_val _ Hrun). cbn [ReadDatabase.nonempty].
    destruct (ReadDatabase.is_select E query); reflexivity. }
  rewrite (reader_main_connected D E args st st1 st2 _ _ _ Hav Hc Hk Hbody).
  run_simpl. split; reflexivity.
Qed.

(** [DROP TABLE missing] on a connection that rejects every statement. *)
Lemma X12_witness :
  let run := ReadDatabase.main Fixtures.rejects_all (Fixtures.env Fixtures.no_vars)
               MoreFixtures.drop_missing (fresh tt) in
  In (Stdout (info_line (u "Query executed successfully"))) (trace_of run)
  /\ value_of run = Val tt.
Proof.
  pose proof (X12_failed_statement_reported_as_success Fixtures.rejects_all
                (Fixtures.env Fixtures.no_vars) MoreFixtures.drop_missing
                (u "DROP TABLE missing") (u "syntax error") tt tt tt tt
                eq_refl eq_refl eq_refl eq_refl eq_refl eq_refl eq_refl eq_refl)
    as [Htrace Hvalue].
  split; [|exact Hvalue].
  rewrite Htrace. vm_compute. tauto.
Defined.

Section ExampleBatches.
Context {St : Type} (D : Driver St).

Lemma finished_app t1 t2 : finished (t1 ++ t2) = finished t1 + finished t2.
Proof.
  unfold finished. rewrite driver_calls_app, filter_app, length_app. reflexivity.
Qed.

Lemma finished_attempted l : finished (attempted l) = 0.
Proof.
  unfold finished. rewrite driver_calls_attempted.
  induction l as [|s l IH]; [reflexivity|exact IH].
Qed.

Hypothesis rollback_returns : forall s, exists s', d_rollback D s = (s', Returns tt).

(** With a rollback that returns, [execute_sql] returns, and ends one
    transaction. *)
Lemma batch_returns sql st :
  exists b st' t,
    CreateSchema.execute_sql D sql (connected st) = (Val b, connected st', t)
    /\ finished t = 1.
Proof.
  destruct (all_succeed_or_first_failure D (statements sql) st)
    as [[st1 Hok]|[pre [B [post [m [st1 [st2 [Hl [Hok HB]]]]]]]]].
  - rewrite (execute_sql_all_executed D sql st st1 Hok).
    destruct (d_commit D st1) as [st2 [[]|text]].
    + eexists; eexists; eexists. split; [reflexivity|].
      rewrite finished_app, finished_attempted. reflexivity.
    + destruct (rollback_returns st2) as [st3 Hr]. rewrite Hr.
      eexists; eexists; eexists. split; [reflexivity|].
      rewrite finished_app, finished_attempted. reflexivity.
  - rewrite (execute_sql_failure D sql pre B post m st st1 st2 Hl Hok HB).
    destruct (rollback_returns st2) as [st3 Hr]. rewrite Hr.
    eexists; eexists; eexists. split; [reflexivity|].
    rewrite finished_app, finished_attempted. reflexivity.
Qed.

Lemma example_loop (t : db_type) (tables : list str) : forall st,
  exists st' tr,
    for_each tables (example_body D t) (connected st) = (Val tt, connected st', tr)
    /\ finished tr = List.length (filter is_example tables)
    /\ (forall table, In table tables -> is_example table = true ->
          In (Stdout (info_line (u "Creating example table: " ++ table))) tr)
    /\ (forall table, In table tables -> is_example table = false ->
          In (Stdout (warn_line (u "Unknown example table: " ++ table))) tr).
Proof.
  induction tables as [|table tables IH]; intros st.
  - exists st, []. split; [reflexivity|]. split; [reflexivity|].
    split; intros table [].
  - assert (Hone : exists st1 t1,
               example_body D t table (connected st) = (Val tt, connected st1, t1)
               /\ finished t1 = (if is_example table then 1 else 0)
               /\ In (Stdout (if is_example table
                              then info_line (u "Creating example table: " ++ table)
                              else warn_line (u "Unknown example table: " ++ table))) t1).
    { unfold example_body, is_example.
      destruct (getitem CreateSchema.EXAMPLE_SCHEMAS table) as [schemas|].
      - destruct (batch_returns (schemas t) st) as [b [st1 [t1 [Hrun Hfin]]]].
        exists st1. eexists. split.
        + unfold log_info. rewrite (bind_val (m := print _) _ (a := tt) eq_refl).
          rewrite (bind_val _ Hrun). run_simpl. reflexivity.
        + split; [|left; reflexivity].
          rewrite (finished_app [_] (t1 ++ [])), app_nil_r, Hfin. reflexivity.
      - exists st. eexists. split; [reflexivity|]. split; [reflexivity|].
        left. reflexivity. }
    destruct Hone as [st1 [t1 [Hrun [Hfin Hline]]]].
    destruct (IH st1) as [st2 [t2 [Hrest [Hfin2 [Hknown Hunknown]]]]].
    exists st2, (t1 ++ t2). split; [|split; [|split]].
    + simpl. rewrite (bind_val _ Hrun), Hrest. reflexivity.
    + rewrite finished_app, Hfin, Hfin2. simpl.
      destruct (is_example table); reflexivity.
    + intros x [<-|Hx] Hk; apply in_or_app.
      * left. rewrite Hk in Hline. exact Hline.
      * right. exact (Hknown x Hx Hk).
    + intros x [<-|Hx] Hk; apply in_or_app.
      * left. rewrite Hk in Hline. exact Hline.
      * right. exact (Hunknown x Hx Hk).
Qed.

End ExampleBatches.

(** X17.  With [--example], every name of the list gets its turn, whatever
    happens to the others: as long as rollbacks return, a batch that fails
    does not stop the run.  Every known table is announced and has its own
    transaction, ended by one commit that returned or by one rollback;
    every unknown name is answered with a warning; and the run ends
    normally when cursor and connection are closed. *)
Theorem X17_example_batches_are_independent
  {St : Type} (D : Driver St) (E : Env) (args : CreateSchema.Args)
  (example : str) (st st1 st2 : St) :
  let t := CreateSchema.arg_type args in
  let c := build_config (getenv E) t (CreateSchema.arg_overrides args) in
  CreateSchema.arg_generate_example args = false ->
  CreateSchema.available E t = true ->
  opt_truthy (CreateSchema.arg_schema args) = false ->
  CreateSchema.arg_example args = Some example ->
  truthy example = true ->
  d_connect D t c st = (st1, Returns tt) ->
  d_cursor D st1 = (st2, Returns tt) ->
  (forall s, exists s', d_rollback D s = (s', Returns tt)) ->
  let run := CreateSchema.main D E args (fresh st) in
  finished (trace_of run) = List.length (filter is_example (example_tables example))
  /\ (forall table, In table (example_tables example) -> is_example table = true ->
        In (Stdout (info_line (u "Creating example table: " ++ table))) (trace_of run))
  /\ (forall table, In table (example_tables example) -> is_example table = false ->
        In (Stdout (warn_line (u "Unknown example table: " ++ table))) (trace_of run))
  /\ exists st3,
       value_of run = after_finally (Val tt) (value_of (CreateSchema.close D (connected st3))).
Proof.
  intros t c Hgen Hav Hs Hx Ht Hc Hk Hroll run. subst run.
  destruct (example_loop D Hroll t (example_tables example) st2)
    as [st3 [tr [Hloop [Hfin [Hknown Hunknown]]]]].
  assert (Hbody : CreateSchema.main_body D E args c (fresh st)
                  = (Val tt, connected st3, connected_events t c ++ tr)).
  { unfold CreateSchema.main_body. fold t.
    rewrite (bind_val _ (connect_returns D t c st st1 st2 Hc Hk)).
    rewrite Hs, Hx. cbn [opt_truthy]. rewrite Ht.
    change (for_each (map strip (split_on 44%N example)) _)
      with (for_each (example_tables example) (example_body D t)).
    rewrite Hloop. reflexivity. }
  rewrite (creator_main_connected D E args st st1 st2 _ _ _ Hgen Hav Hc Hk Hbody).
  run_simpl. split; [|split; [|split]].
  - rewrite !finished_app, Hfin.
    assert (Hclose : finished (trace_of (CreateSchema.close D (connected st3))) = 0).
    { unfold finished.
      rewrite (close_only_closes D ends_transaction _
                 (fun r => eq_refl) (fun r => eq_refl)).
      reflexivity. }
    rewrite Hclose. cbn [finished connected_events driver_calls flat_map app filter
                          ends_transaction List.length]. lia.
  - intros table Hin Hy. apply in_or_app. right. apply in_or_app. left.
    exact (Hknown table Hin Hy).
  - intros table Hin Hn. apply in_or_app. right. apply in_or_app. left.
    exact (Hunknown table Hin Hn).
  - exists st3. reflexivity.
Qed.

(** Three names, the second unknown, on a connection that rejects every
    statement: two rollbacks, one warning. *)
Lemma X17_witness :
  finished (trace_of (CreateSchema.main Fixtures.rejects_all
                        (Fixtures.env Fixtures.no_vars)
                        MoreFixtures.three_examples (fresh tt))) = 2.
Proof.
  exact (proj1 (X17_example_batches_are_independent Fixtures.rejects_all
                  (Fixtures.env Fixtures.no_vars) MoreFixtures.three_examples
                  (u "users, nothing ,posts") tt tt tt
                  eq_refl eq_refl eq_refl eq_refl eq_refl eq_refl eq_refl
                  (fun s => ex_intro _ s eq_refl))).
Defined.

(** ** The configuration, field by field *)

(** X18.  Every field of the configuration is built from three layers: a
    flag that is given and not empty wins; otherwise the environment
    variable of the field, if it is set (also to the empty string);
    otherwise the built-in default.  A flag given with the empty string
    counts as absent, and the flag of one field never touches another
    field. *)
Theorem X18_three_layers (getenv : str -> option str) (t : db_type)
        (a : overrides) (f : field) :
  field_of (build_config getenv t a) f
  = match flag_of a f with
    | Some (c :: v) => c :: v
    | Some [] | None =>
        match getenv (env_var f) with
        | Some v => v
        | None => field_of (builtin_default t) f
        end
    end.
Proof.
  unfold build_config, DEFAULT_CONFIG, getenv_or.
  destruct f; cbn [field_of flag_of env_var db_name db_user db_password db_host db_port];
    match goal with
    | |- context [override ?o _] => destruct o as [[|c v]|]
    end; cbn [override truthy]; try reflexivity;
    destruct (getenv _); try reflexivity; destruct t; reflexivity.
Qed.

(** X19.  The vendor decides nothing but the default port: every other
    field is the same for both vendors, and so is the port as soon as a
    non-empty [--port] or the variable [DB_PORT] gives it; without them
    PostgreSQL gets 5432 and MySQL 3306. *)
Theorem X19_vendor_decides_default_port_only
        (getenv : str -> option str) (a : overrides) :
  (forall f, f <> FPort ->
     field_of (build_config getenv postgres a) f
     = field_of (build_config getenv mysql a) f)
  /\ (opt_truthy (arg_port a) = true \/ getenv (u "DB_PORT") <> None ->
      db_port (build_config getenv postgres a) = db_port (build_config getenv mysql a))
  /\ (opt_truthy (arg_port a) = false -> getenv (u "DB_PORT") = None ->
      db_port (build_config getenv postgres a) = u "5432"
      /\ db_port (build_config getenv mysql a) = u "3306").
Proof.
  split; [|split].
  - intros f Hf. destruct f; try reflexivity. congruence.
  - unfold build_config, DEFAULT_CONFIG, getenv_or, opt_truthy, override.
    cbn [db_port]. intros [H|H].
    + destruct (arg_port a) as [[|c v]|]; try discriminate H. reflexivity.
    + destruct (arg_port a) as [[|c v]|]; try reflexivity;
        destruct (getenv (u "DB_PORT")); try reflexivity; congruence.
  - unfold build_config, DEFAULT_CONFIG, getenv_or, opt_truthy, override.
    cbn [db_port]. intros H Hg. rewrite Hg.
    destruct (arg_port a) as [[|c v]|]; try discriminate H; split; reflexivity.
Qed.

(** [DB_PORT=6000] with no flag, and no port given at all. *)
Lemma X19_witness :
  db_port (build_config (fun name => if str_eqb name (u "DB_PORT")
                                     then Some (u "6000") else None)
             mysql Fixtures.no_flags) = u "6000"
  /\ db_port (build_config Fixtures.no_vars mysql Fixtures.no_flags) = u "3306".
Proof.
  split.
  - assert (Hset : (if str_eqb (u "DB_PORT") (u "DB_PORT")
                    then Some (u "6000") else None) <> None)
      by (vm_compute; discriminate).
    rewrite <- (proj1 (proj2 (X19_vendor_decides_default_port_only
                                (fun name => if str_eqb name (u "DB_PORT")
                                             then Some (u "6000") else None)
                                Fixtures.no_flags))
                  (or_intror Hset)).
    reflexivity.
  - exact (proj2 (proj2 (proj2 (X19_vendor_decides_default_port_only
                                  Fixtures.no_vars Fixtures.no_flags))
                    eq_refl eq_refl)).
Defined.

(** ** [setup_database.py] *)

(** X20.  [run_command] starts exactly one process and never returns
    [None].  Without [check] it returns the record of the process whatever
    its return code, prints nothing and never exits.  With [check] it
    returns only a process that returned 0; after any other return code it
    prints two error lines, the second with the text of the exception, and
    exits with status 1. *)
Theorem X20_run_command_contract
  {St : Type} (O : SetupDatabase.OS St) (command : list str)
  (check capture_output : bool) (st : St) :
  let run := SetupDatabase.run_command O command check capture_output st in
  SetupDatabase.value_of run <> SetupDatabase.Done None
  /\ SetupDatabase.commands (SetupDatabase.trace_of run) = [command]
  /\ (forall st1 result,
         SetupDatabase.os_run O command capture_output st = (st1, Returns result) ->
         check = false \/ SetupDatabase.returncode result = 0%Z ->
         run = (SetupDatabase.Done (Some result), st1,
                [SetupDatabase.Ran command capture_output
                   (Some (SetupDatabase.returncode result))]))
  /\ (forall st1 result,
         SetupDatabase.os_run O command capture_output st = (st1, Returns result) ->
         check = true ->
         SetupDatabase.returncode result <> 0%Z ->
         run = (SetupDatabase.Fail (SetupDatabase.Exit 1), st1,
                [SetupDatabase.Ran command capture_output
                   (Some (SetupDatabase.returncode result));
                 SetupDatabase.Said
                   (error_line (u "Command failed: " ++ join (u " ") command));
                 SetupDatabase.Said
                   (error_line
                      (u "Error: "
                       ++ (if capture_output then SetupDatabase.stderr result
                           else SetupDatabase.error_text O command
                                  (SetupDatabase.returncode result))))]))
  /\ (forall st1 text,
         SetupDatabase.os_run O command capture_output st = (st1, Raises text) ->
         run = (SetupDatabase.Fail (SetupDatabase.OtherError text), st1,
                [SetupDatabase.Ran command capture_output None])).
Proof.
  intros run. subst run.
  unfold SetupDatabase.run_command, SetupDatabase.subprocess_run.
  destruct (SetupDatabase.os_run O command capture_output st) as [st1 [result|text]].
  - destruct (Z.eqb_spec (SetupDatabase.returncode result) 0) as [Hz|Hz];
      destruct check; cbn [andb negb];
      (split; [discriminate|]); (split; [reflexivity|]);
      (split; [|split]).
    all: try (intros st1' r' H; discriminate H).
    all: try (intros st1' r' H Hc; discriminate Hc).
    all: try (intros st1' r' H _; injection H as <- <-; reflexivity).
    + intros st1' r' H _ Hn. injection H as <- <-. contradiction.
    + intros st1' r' H [Hc|Hr]; injection H as <- <-; [discriminate Hc|contradiction].
  - split; [discriminate|]. split; [reflexivity|].
    split; [|split]; intros st1' r' H; try discriminate H.
    injection H as <- <-. reflexivity.
Qed.

(** Runs a setup through every answer of the operating system. *)
Ltac os_cases O :=
  repeat (match goal with
          | |- context [SetupDatabase.os_run O ?c ?cap ?s] =>
              let E := fresh "Erun" in
              destruct (SetupDatabase.os_run O c cap s) as [? [?|?]] eqn:E
          | |- context [SetupDatabase.os_communicate O ?c ?i ?s] =>
              let E := fresh "Epipe" in
              destruct (SetupDatabase.os_communicate O c i s) as [? [?|?]] eqn:E
          | |- context [(SetupDatabase.returncode ?r =? 0)%Z] =>
              destruct (Z.eqb_spec (SetupDatabase.returncode r) 0)
          end;
          cbn -[info_line warn_line error_line join SetupDatabase.postgresql_commands
                SetupDatabase.mysql_commands SetupDatabase.postgresql_connection_string
                SetupDatabase.mysql_connection_string]).

Ltac setup_unfold :=
  unfold SetupDatabase.setup, SetupDatabase.setup_postgresql, SetupDatabase.setup_mysql,
    SetupDatabase.bind, SetupDatabase.run_command, SetupDatabase.subprocess_run,
    SetupDatabase.returncode_of, SetupDatabase.popen_communicate,
    SetupDatabase.log_info, SetupDatabase.log_warn, SetupDatabase.log_error,
    SetupDatabase.say, SetupDatabase.ret, SetupDatabase.raise, SetupDatabase.sys_exit,
    SetupDatabase.value_of, SetupDatabase.trace_of.

(** Every event of an explicit trace obeys [all_returned_zero]. *)
Ltac all_zero :=
  let e := fresh "e" in
  let Hin := fresh "Hin" in
  intros e Hin; cbn [In] in Hin;
  repeat (destruct Hin as [<-|Hin];
          [ first [ exact I | left; reflexivity | right; assumption | assumption ] | ]);
  destruct Hin.

(** A printed line of an explicit trace is not the given one. *)
Ltac not_said :=
  let Hin := fresh "Hin" in
  intros Hin; cbn [In] in Hin;
  repeat (destruct Hin as [Hin|Hin];
          [ first [ discriminate Hin
                  | injection Hin as Hin;
                    unfold info_line, warn_line, error_line in Hin;
                    vm_compute in Hin; discriminate Hin ] | ]);
  destruct Hin.

Ltac said_last := cbn [In]; repeat (first [ left; reflexivity | right ]).





(** X23.  [setup_database.py] prints that the setup completed
    successfully exactly in the runs that end normally, and in these every
    command but [which] returned 0: after a command that fails, the line
    is never printed. *)
Theorem X23_success_line_only_after_success
  {St : Type} (O : SetupDatabase.OS St) (getenv : str -> option str)
  (args : SetupDatabase.Args) (st : St) :
  let run := SetupDatabase.main O getenv args st in
  (In (SetupDatabase.Said (info_line (u "Setup completed successfully!")))
      (SetupDatabase.trace_of run)
   <-> SetupDatabase.value_of run = SetupDatabase.Done tt)
  /\ (SetupDatabase.value_of run = SetupDatabase.Done tt ->
      SetupDatabase.all_returned_zero (SetupDatabase.trace_of run)).
Proof.
  cbv zeta. unfold SetupDatabase.main.
  set (c := build_config getenv (SetupDatabase.arg_type args)
              (SetupDatabase.arg_overrides args)).
  clearbody c.
  destruct (SetupDatabase.arg_type args); setup_unfold; os_cases O.
  all: split;
    [ split; [ intros Hin; first [ reflexivity | exfalso; revert Hin; not_said ]
             | intros Hv; first [ discriminate Hv | said_last ] ]
    | intros Hv; first [ discriminate Hv | all_zero ] ].
Qed.

(** Every command fails with code 3: the run ends at [apt-get update]. *)
Lemma X23_witness :
  ~ In (SetupDatabase.Said (info_line (u "Setup completed successfully!")))
       (SetupDatabase.trace_of
          (SetupDatabase.main (SetupDatabase.failing 3) Fixtures.no_vars
             {| SetupDatabase.arg_type := postgres;
                SetupDatabase.arg_overrides := Fixtures.no_flags |} tt)).
Proof.
  intros Hin.
  apply (proj1 (proj1 (X23_success_line_only_after_success (SetupDatabase.failing 3)
                         Fixtures.no_vars
                         {| SetupDatabase.arg_type := postgres;
                            SetupDatabase.arg_overrides := Fixtures.no_flags |} tt)))
    in Hin.
  vm_compute in Hin. discriminate Hin.
Defined.
(** ** The MySQL reader from the command line *)

(** X24.  Once connected, [read_database.py --type mysql] answers
    [--list-tables] with the warning that no tables were found and
    [--describe name] with the warning that the table was not found,
    whatever the database holds: nothing is fetched and no table name or
    column is ever printed. *)
Theorem X24_mysql_reader_finds_nothing
  {St : Type} (D : Driver St) (E : Env) (args : ReadDatabase.Args) (st st1 st2 : St) :
  let c := build_config (getenv E) mysql (ReadDatabase.arg_overrides args) in
  let run := ReadDatabase.main D E args (fresh st) in
  ReadDatabase.arg_type args = mysql ->
  MYSQL_AVAILABLE E = true ->
  d_connect D mysql c st = (st1, Returns tt) ->
  d_cursor D st1 = (st2, Returns tt) ->
  (ReadDatabase.arg_list_tables args = true ->
   In (Stdout (warn_line (u "No tables found in database"))) (trace_of run)
   /\ count_calls is_fetchall (trace_of run) = 0)
  /\ (ReadDatabase.arg_list_tables args = false ->
      forall name,
        ReadDatabase.arg_describe args = Some name ->
        truthy name = true ->
        In (Stdout (warn_line (u "Table '" ++ name ++ u "' not found"))) (trace_of run)
        /\ count_calls is_fetchall (trace_of run) = 0).
Proof.
  cbv zeta. destruct args as [ty query list_flag describe format flags].
  cbn [ReadDatabase.arg_type ReadDatabase.arg_overrides ReadDatabase.arg_list_tables
       ReadDatabase.arg_describe].
  intros Hty Hav Hc Hk. subst ty.
  set (c := build_config (getenv E) mysql flags) in *.
  set (args := {| ReadDatabase.arg_type := mysql;
                  ReadDatabase.arg_query := query;
                  ReadDatabase.arg_list_tables := list_flag;
                  ReadDatabase.arg_describe := describe;
                  ReadDatabase.arg_format := format;
                  ReadDatabase.arg_overrides := flags |}).
  assert (Hcount : forall tr w,
             count_calls is_fetchall tr = 0 ->
             count_calls is_fetchall
               (connected_events mysql c ++ tr ++ trace_of (ReadDatabase.close D w)) = 0).
  { intros tr w Htr. rewrite !count_calls_app, Htr, reader_close_same.
    rewrite close_counts by reflexivity. reflexivity. }
  split.
  - intros Hl.
    destruct (not_select_reports_nothing D E mysql (u "SHOW TABLES;") st2 eq_refl)
      as [st3 [tr [Hq Hf]]].
    assert (Hlist : ReadDatabase.list_tables D E mysql (connected st2)
                    = (Val [], connected st3, tr ++ [])).
    { unfold ReadDatabase.list_tables. rewrite (bind_val _ Hq). reflexivity. }
    assert (Hbody : ReadDatabase.main_body D E args c (fresh st)
                    = (Val tt, connected st3,
                       connected_events mysql c
                       ++ (tr ++ [Stdout (warn_line (u "No tables found in database"))]))).
    { unfold ReadDatabase.main_body, args.
      cbn [ReadDatabase.arg_type ReadDatabase.arg_list_tables ReadDatabase.arg_describe
           ReadDatabase.arg_query ReadDatabase.arg_format].
      rewrite reader_connect_same.
      rewrite (bind_val _ (connect_returns D mysql c st st1 st2 Hc Hk)).
      cbn [ReadDatabase.arg_list_tables]. rewrite Hl, (bind_val _ Hlist), app_nil_r.
      run_simpl. reflexivity. }
    rewrite (reader_main_connected D E args st st1 st2 _ _ _ Hav Hc Hk Hbody).
    run_simpl. split.
    + apply in_or_app. right. apply in_or_app. left. apply in_or_app. right.
      left. reflexivity.
    + apply Hcount. rewrite count_calls_app, Hf. reflexivity.
  - intros Hl name Hd Hn.
    destruct (not_select_reports_nothing D E mysql (describe_query mysql name) st2
                (is_select_describe_mysql E name))
      as [st3 [tr [Hq Hf]]].
    assert (Hbody : ReadDatabase.main_body D E args c (fresh st)
                    = (Val tt, connected st3,
                       connected_events mysql c
                       ++ (tr ++ [Stdout (warn_line (u "Table '" ++ name
                                                     ++ u "' not found"))]))).
    { unfold ReadDatabase.main_body, args.
      cbn [ReadDatabase.arg_type ReadDatabase.arg_list_tables ReadDatabase.arg_describe
           ReadDatabase.arg_query ReadDatabase.arg_format].
      rewrite reader_connect_same.
      rewrite (bind_val _ (connect_returns D mysql c st st1 st2 Hc Hk)).
      cbn [ReadDatabase.arg_list_tables ReadDatabase.arg_describe].
      rewrite Hl, Hd. cbn [opt_truthy]. rewrite Hn.
      change (ReadDatabase.describe_table D E mysql name)
        with (ReadDatabase.execute_query D E mysql (describe_query mysql name)).
      rewrite (bind_val _ Hq). run_simpl. reflexivity. }
    rewrite (reader_main_connected D E args st st1 st2 _ _ _ Hav Hc Hk Hbody).
    run_simpl. split.
    + apply in_or_app. right. apply in_or_app. left. apply in_or_app. right.
      left. reflexivity.
    + apply Hcount. rewrite count_calls_app, Hf. reflexivity.
Qed.

(** [--list-tables] against a server that holds two tables. *)
Lemma X24_witness :
  In (Stdout (warn_line (u "No tables found in database")))
     (trace_of (ReadDatabase.main (MoreFixtures.serving MoreFixtures.two_tables)
                  (Fixtures.env Fixtures.no_vars) MoreFixtures.mysql_list_tables
                  (fresh tt))).
Proof.
  exact (proj1 (proj1 (X24_mysql_reader_finds_nothing
                         (MoreFixtures.serving MoreFixtures.two_tables)
                         (Fixtures.env Fixtures.no_vars) MoreFixtures.mysql_list_tables
                         tt tt tt eq_refl eq_refl eq_refl eq_refl) eq_refl)).
Defined.

